(** * ODR-DabMux management server: a shallow embedding of
      [src/ManagementServer.cpp] and the properties of its statistics
      registry, input-state classifier and property-tree handshake. *)

From Stdlib Require Import String Ascii List ZArith NArith Lia Bool.
From Stdlib Require Import Sorted SetoidList Permutation.
From Stdlib Require Import OrderedTypeEx FMapList FMapFacts FMapPositive.
From Stdlib Require DecimalString.
Import ListNotations.

Local Open Scope string_scope.
Local Open Scope Z_scope.

Set Warnings "-register-all".

(** ** Containers

    [std::map<std::string, InputStat*>] is an ordered map: iteration from
    [begin()] to [end()] visits the keys in increasing [std::string] order
    (bytewise lexicographic).  [FMapList] over [String_as_OT] has the same
    interface and the same iteration order ([SMap.elements]).

    An [InputStat*] is an address in a store of producer-owned objects. *)

Module SMap := FMapList.Make(String_as_OT).
Module SMapF := FMapFacts.Facts(SMap).
Module PMapF := FMapFacts.Facts(PositiveMap).

Definition ptr := positive.

(** ** Text helpers for the [std::ostringstream] output *)

Definition dq : string := String (ascii_of_nat 34) EmptyString.
Definition nl : string := String (ascii_of_nat 10) EmptyString.

(** [ss << n] for an integer [n]: decimal digits with a leading minus sign
    for negative values. *)
Definition show_Z (z : Z) : string :=
  DecimalString.NilZero.string_of_int (Z.to_int z).

(** ** Data model *)

(** [boost::property_tree::ptree]: a node carries a data string and an
    ordered sequence of (key, subtree) children. *)
Inductive ptree : Type :=
| PNode (data : string) (children : list (string * ptree)).

(** The tree left by [m_pt.clear()]. *)
Definition ptree_clear : ptree := PNode EmptyString [].

(** Outcome of a call that may throw a [std::exception]. *)
Inductive except (A : Type) : Type :=
| Ok (a : A)
| Throw (what : string).
Arguments Ok {A} a.
Arguments Throw {A} what.

(** The members of [InputStat] that this translation unit reads or writes.
    Counters and [time_t] stamps are integers; the arithmetic on them below
    is a difference of two time stamps and comparisons, taken over [Z]. *)
Record InputStat : Type := mkInputStat {
  m_name : string;
  min_fill_buffer : Z;
  max_fill_buffer : Z;
  peak_left : Z;
  peak_right : Z;
  num_underruns : Z;
  num_overruns : Z;
  m_buffer_empty : bool;
  m_time_last_buffer_nonempty : Z;
  m_time_last_event : Z;
  m_glitch_counter : Z;
  m_silence_counter : Z
}.

Definition get_name (s : InputStat) : string := m_name s.

Definition set_glitch_counter (s : InputStat) (g : Z) : InputStat :=
  mkInputStat (m_name s) (min_fill_buffer s) (max_fill_buffer s)
    (peak_left s) (peak_right s) (num_underruns s) (num_overruns s)
    (m_buffer_empty s) (m_time_last_buffer_nonempty s)
    (m_time_last_event s) g (m_silence_counter s).

Inductive input_state_t : Type := NoData | Unstable | Silence | Streaming.

Definition input_state_eqb (a b : input_state_t) : bool :=
  match a, b with
  | NoData, NoData | Unstable, Unstable
  | Silence, Silence | Streaming, Streaming => true
  | _, _ => false
  end.

(** The store of live [InputStat] objects, owned by the producers. *)
Definition heap := PositiveMap.t InputStat.

(** Members of [ManagementServer] used by the registry and by the
    property-tree handshake. *)
Record ManagementServer : Type := mkManagementServer {
  m_inputStats : SMap.t ptr;
  m_pt : ptree;
  m_pending : bool;
  m_retrieve_pending : bool;
  m_running : bool;
  m_fault : bool
}.

Definition set_inputStats (srv : ManagementServer) (m : SMap.t ptr) :=
  mkManagementServer m (m_pt srv) (m_pending srv) (m_retrieve_pending srv)
    (m_running srv) (m_fault srv).

Definition set_pt (srv : ManagementServer) (pt : ptree) :=
  mkManagementServer (m_inputStats srv) pt (m_pending srv)
    (m_retrieve_pending srv) (m_running srv) (m_fault srv).

Definition set_pending (srv : ManagementServer) (b : bool) :=
  mkManagementServer (m_inputStats srv) (m_pt srv) b
    (m_retrieve_pending srv) (m_running srv) (m_fault srv).

Definition set_retrieve_pending (srv : ManagementServer) (b : bool) :=
  mkManagementServer (m_inputStats srv) (m_pt srv) (m_pending srv) b
    (m_running srv) (m_fault srv).

(** ** Observable effects *)

Inductive log_level : Type := debug | info | warn | error.

Inductive event : Type :=
| EvLog (lvl : log_level) (msg : string)  (* etiLog.level(lvl) << msg *)
| EvWrite (data : string)                 (* boost::asio::write on the socket *)
| EvNotifyOne.                            (* m_condition.notify_one() *)

Definition is_notify (e : event) : bool :=
  match e with EvNotifyOne => true | _ => false end.

(** The texts written to the client socket, in order. *)
Fixpoint written (evs : list event) : list string :=
  match evs with
  | [] => []
  | EvWrite d :: rest => d :: written rest
  | _ :: rest => written rest
  end.

(** Number of [notify_one] calls on [m_condition]. *)
Definition notifications (evs : list event) : nat :=
  List.length (filter is_notify evs).

(** ** The statistics registry *)

(** [m_inputStats.count(id)]: 0 or 1 for a [std::map]. *)
Definition count (id : string) (m : SMap.t ptr) : Z :=
  if SMap.mem id m then 1 else 0.

(** [ManagementServer::registerInput].  [None] stands for the undefined
    behaviour of calling [get_name()] through a pointer [inp] (the source's
    [is]) to no live object. *)
Definition registerInput (srv : ManagementServer) (h : heap) (inp : ptr)
  : option (ManagementServer * list event) :=
  match PositiveMap.find inp h with
  | None => None
  | Some s =>
      let id := get_name s in
      if count id (m_inputStats srv) =? 1 then
        Some (srv,
              [EvLog error
                 ("Double registration in MGMT Server with id '" ++ id ++ "'")])
      else
        Some (set_inputStats srv (SMap.add id inp (m_inputStats srv)), [])
  end.

(** [ManagementServer::unregisterInput]. *)
Definition unregisterInput (srv : ManagementServer) (id : string)
  : ManagementServer :=
  if count id (m_inputStats srv) =? 1 then
    set_inputStats srv (SMap.remove id (m_inputStats srv))
  else srv.

(** [ManagementServer::isInputRegistered]. *)
Definition isInputRegistered (srv : ManagementServer) (id : string)
  : bool * list event :=
  if count id (m_inputStats srv) =? 0 then
    (false,
     [EvLog error
        ("Management Server: id '" ++ id ++ "' does was not registered")])
  else (true, []).

(** The loop of [getStatConfigJSON]: [iter] runs over the entries in key
    order, [i] counts them, [ss] is the stream written so far. *)
Fixpoint config_loop (entries : list (string * ptr)) (i : Z) (ss : string)
  : string :=
  match entries with
  | [] => ss
  | (id, _) :: rest =>
      let ss := if 0 <? i then ss ++ ", " else ss in
      let ss := ss ++ " " ++ dq ++ id ++ dq ++ " " in
      config_loop rest (i + 1) ss
  end.

(** [ManagementServer::getStatConfigJSON]. *)
Definition getStatConfigJSON (srv : ManagementServer) : string :=
  let ss := "{ " ++ dq ++ "config" ++ dq ++ " : [" ++ nl in
  let ss := config_loop (SMap.elements (m_inputStats srv)) 0 ss in
  ss ++ "] }" ++ nl.

(** The ids the configuration snapshot walks over ([iter->first]). *)
Definition snapshotIds (srv : ManagementServer) : list string :=
  map fst (SMap.elements (m_inputStats srv)).

Definition quoted (s : string) : string := dq ++ s ++ dq.

(** ** What the absent headers provide

    [ManagementServer.h] and [config.h] are not part of the translation
    unit; the macros and the library computations it relies on are
    collected in one interface, a parameter of the whole development. *)

Class Header : Type := mkHeader {
  (** State-calculation macros of [ManagementServer.h]. *)
  INPUT_COUNTER_RESET_TIME : Z;        (* minutes *)
  INPUT_NODATA_TIMEOUT : Z;            (* seconds *)
  INPUT_UNSTABLE_THRESHOLD : Z;
  INPUT_AUDIO_LEVEL_SILENCE_COUNT : Z;
  (** The values [InputStat::reset()] stores in the two fill extrema. *)
  MIN_FILL_BUFFER_UNDEF : Z;
  MAX_FILL_BUFFER_UNDEF : Z;
  (** [PACKAGE_NAME], and [GITVERSION] or else [PACKAGE_VERSION]. *)
  PACKAGE_NAME : string;
  VERSION : string;
  (** [round_20log10 p] is the [int] that
      [round(20*log10((double)p / int16_max))] yields, a double-precision
      computation of the C library. *)
  round_20log10 : Z -> Z;
  (** [boost::property_tree::json_parser::write_json] into a string
      stream. *)
  write_json : ptree -> except string
}.

Section Model.

Context {hd : Header}.

(** ** [InputStat] *)

(** Modelled from the spec: [InputStat::reset()], defined in the absent
    [ManagementServer.h].  The fill extrema return to their sentinels, the
    underrun and overrun counts and both peaks return to 0; the glitch and
    silence counters and the time stamps are not touched. *)
Definition reset (s : InputStat) : InputStat :=
  mkInputStat (m_name s) MIN_FILL_BUFFER_UNDEF MAX_FILL_BUFFER_UNDEF
    0 0 0 0
    (m_buffer_empty s) (m_time_last_buffer_nonempty s)
    (m_time_last_event s) (m_glitch_counter s) (m_silence_counter s).

(** The conversion to dB of [encodeValuesJSON]:
    [peak ? round(20*log10((double)peak / int16_max)) : -90]. *)
Definition peak_dB (peak : Z) : Z :=
  if peak =? 0 then -90 else round_20log10 peak.

(** [InputStat::encodeValuesJSON]. *)
Definition encodeValuesJSON (s : InputStat) : string :=
  let dB_l := peak_dB (peak_left s) in
  let dB_r := peak_dB (peak_right s) in
  "{ " ++ quoted "inputstat" ++ " : {"
    ++ quoted "min_fill" ++ ": " ++ show_Z (min_fill_buffer s) ++ ", "
    ++ quoted "max_fill" ++ ": " ++ show_Z (max_fill_buffer s) ++ ", "
    ++ quoted "peak_left" ++ ": " ++ show_Z dB_l ++ ", "
    ++ quoted "peak_right" ++ ": " ++ show_Z dB_r ++ ", "
    ++ quoted "num_underruns" ++ ": " ++ show_Z (num_underruns s) ++ ", "
    ++ quoted "num_overruns" ++ ": " ++ show_Z (num_overruns s)
    ++ " } }".

(** [InputStat::determineState], with [now] the value of [time(NULL)].
    The glitch counter may be written, so the object is returned too. *)
Definition determineState (now : Z) (s : InputStat)
  : input_state_t * InputStat :=
  let s :=
    if 60 * INPUT_COUNTER_RESET_TIME <? now - m_time_last_event s
    then set_glitch_counter s 0
    else s in
  let state :=
    if m_buffer_empty s &&
       (INPUT_NODATA_TIMEOUT <? now - m_time_last_buffer_nonempty s)
    then NoData
    else if INPUT_UNSTABLE_THRESHOLD <=? m_glitch_counter s
    then Unstable
    else if INPUT_AUDIO_LEVEL_SILENCE_COUNT <? m_silence_counter s
    then Silence
    else Streaming in
  (state, s).

(** A [switch] over an enumeration value: the first [case] whose label
    equals the value is taken, the [default] otherwise. *)
Fixpoint switch_state (v : input_state_t)
    (cases : list (input_state_t * string)) (default : string) : string :=
  match cases with
  | [] => default
  | (label, out) :: rest =>
      if input_state_eqb v label then out else switch_state v rest default
  end.

(** [InputStat::encodeStateJSON]. *)
Definition encodeStateJSON (now : Z) (s : InputStat) : string * InputStat :=
  let ss := "{ " ++ quoted "state" ++ " : " in
  let '(state, s) := determineState now s in
  let ss := ss ++ switch_state state
                    [ (NoData, quoted "NoData");
                      (Unstable, quoted "Unstable");
                      (Silence, quoted "Silent");
                      (Streaming, quoted "Streaming") ]
                    (quoted "Unknown") in
  (ss ++ " }", s).

(** ** Value and state snapshots *)

(** The loop of [getValuesJSON].  [None]: a registered pointer refers to no
    live object (undefined behaviour in the source). *)
Fixpoint values_loop (entries : list (string * ptr)) (i : Z) (ss : string)
    (h : heap) : option (string * heap) :=
  match entries with
  | [] => Some (ss, h)
  | (id, stats) :: rest =>
      match PositiveMap.find stats h with
      | None => None
      | Some s =>
          let ss := if 0 <? i then ss ++ " ," ++ nl else ss in
          let ss := ss ++ " " ++ dq ++ id ++ dq ++ " : " in
          let ss := ss ++ encodeValuesJSON s in
          let h := PositiveMap.add stats (reset s) h in
          values_loop rest (i + 1) ss h
      end
  end.

(** [ManagementServer::getValuesJSON]. *)
Definition getValuesJSON (srv : ManagementServer) (h : heap)
  : option (string * heap) :=
  let ss := "{ " ++ quoted "values" ++ " : {" ++ nl in
  match values_loop (SMap.elements (m_inputStats srv)) 0 ss h with
  | None => None
  | Some (ss, h) => Some (ss ++ "}" ++ nl ++ "}" ++ nl, h)
  end.

(** The loop of [getStateJSON]. *)
Fixpoint state_loop (now : Z) (entries : list (string * ptr)) (i : Z)
    (ss : string) (h : heap) : option (string * heap) :=
  match entries with
  | [] => Some (ss, h)
  | (id, stats) :: rest =>
      match PositiveMap.find stats h with
      | None => None
      | Some s =>
          let ss := if 0 <? i then ss ++ " ," ++ nl else ss in
          let ss := ss ++ " " ++ dq ++ id ++ dq ++ " : " in
          let '(json, s) := encodeStateJSON now s in
          let ss := ss ++ json in
          let h := PositiveMap.add stats (reset s) h in
          state_loop now rest (i + 1) ss h
      end
  end.

(** [ManagementServer::getStateJSON]; one clock reading [now] serves the
    whole snapshot. *)
Definition getStateJSON (now : Z) (srv : ManagementServer) (h : heap)
  : option (string * heap) :=
  let ss := "{" ++ nl in
  match state_loop now (SMap.elements (m_inputStats srv)) 0 ss h with
  | None => None
  | Some (ss, h) => Some (ss ++ "}" ++ nl, h)
  end.

(** ** The property-tree handshake *)

(** [ManagementServer::retrieve_new_ptree]; [pt] is the caller's tree, which
    is overwritten only when a client-supplied tree is pending. *)
Definition retrieve_new_ptree (srv : ManagementServer) (pt : ptree)
  : bool * ptree * ManagementServer * list event :=
  if m_retrieve_pending srv then
    (true, m_pt srv, set_retrieve_pending srv false, [EvNotifyOne])
  else
    (false, pt, srv, []).

(** [ManagementServer::update_ptree]. *)
Definition update_ptree (srv : ManagementServer) (pt : ptree)
  : ManagementServer * list event :=
  if m_running srv then
    (set_pending (set_pt srv pt) false, [EvNotifyOne])
  else
    (srv, []).

(** What the engine thread may do to the bridge while the serving thread
    sleeps in [m_condition.wait(lock)]. *)
Inductive engine_op : Type :=
| EngUpdate (pt : ptree)       (* update_ptree(pt) *)
| EngRetrieve (pt : ptree).    (* retrieve_new_ptree(pt) *)

Definition engine_step (srv : ManagementServer) (op : engine_op)
  : ManagementServer * list event :=
  match op with
  | EngUpdate pt => update_ptree srv pt
  | EngRetrieve pt =>
      let '(_, _, srv, evs) := retrieve_new_ptree srv pt in (srv, evs)
  end.

Fixpoint engine_run (srv : ManagementServer) (ops : list engine_op)
  : ManagementServer * list event :=
  match ops with
  | [] => (srv, [])
  | op :: rest =>
      let '(srv, evs) := engine_step srv op in
      let '(srv, evs') := engine_run srv rest in
      (srv, (evs ++ evs')%list)
  end.

(** The wait loop of the [getptree] command,
    [while (m_pending && !m_retrieve_pending) m_condition.wait(lock);].
    Each element of [wake] is the engine activity during one sleep, after
    which the predicate is tested again.  The result is [(true, _, _)] when
    the loop is left and [(false, _, _)] when the thread is still asleep
    once the activity is exhausted: with nothing left to change the two
    flags, it sleeps for ever.  (An interruption of the serving thread by
    [restart()] is outside this model.) *)
Fixpoint cond_wait (wake : list (list engine_op)) (srv : ManagementServer)
    (evs : list event) : bool * ManagementServer * list event :=
  if m_pending srv && negb (m_retrieve_pending srv) then
    match wake with
    | [] => (false, srv, evs)
    | ops :: rest =>
        let '(srv, evs') := engine_run srv ops in
        cond_wait rest srv (evs ++ evs')%list
    end
  else (true, srv, evs).

(** ** Serving one connection *)

(** What the environment supplies to one run of [handle_accept].
    [json_parsed] is the outcome of [read_json] on the line that follows a
    [setptree] command: the parsed tree, or the [json_parser_error] it
    throws, in which case it leaves its tree argument as it found it.
    Both [read_until] calls are taken as completed: a client that stays
    silent keeps the source inside [read_until], which no value of this
    record describes. *)
Record connection : Type := mkConnection {
  boost_error : bool;           (* the accept completed with an error *)
  in_message : string;          (* the command line, as getline leaves it *)
  json_length : N;              (* size_t result of the second read_until *)
  json_parsed : except ptree;   (* what read_json makes of that line *)
  conn_now : Z;                 (* time(NULL) while the request is served *)
  wakeups : list (list engine_op)
}.

Inductive handler_result : Type :=
| Returned (srv : ManagementServer) (h : heap) (evs : list event)
| Waiting (srv : ManagementServer) (h : heap) (evs : list event)
| Undefined.

Definition welcome_msg : string :=
  "{ " ++ quoted "service" ++ ": " ++ dq ++ PACKAGE_NAME ++ " " ++ VERSION
    ++ " MGMT Server" ++ dq ++ " }" ++ nl.

Definition caught (what : string) : event :=
  EvLog error ("MGMT server caught exception: " ++ what).

(** [ManagementServer::handle_accept]. *)
Definition handle_accept (conn : connection) (srv : ManagementServer)
    (h : heap) : handler_result :=
  if boost_error conn then
    Returned srv h [EvLog error "MGMT: Error accepting connection"]
  else
    let evs := [EvLog info "RC: Accepted"; EvWrite welcome_msg] in
    let msg := in_message conn in
    if (msg =? "config")%string then
      let json := getStatConfigJSON srv in
      Returned srv h (evs ++ [EvWrite json])%list
    else if (msg =? "values")%string then
      match getValuesJSON srv h with
      | None => Undefined
      | Some (json, h) => Returned srv h (evs ++ [EvWrite json])%list
      end
    else if (msg =? "state")%string then
      match getStateJSON (conn_now conn) srv h with
      | None => Undefined
      | Some (json, h) => Returned srv h (evs ++ [EvWrite json])%list
      end
    else if (msg =? "setptree")%string then
      let length := json_length conn in
      if (0 <? length)%N then
        let srv := set_pt srv ptree_clear in
        match json_parsed conn with
        | Ok pt => Returned (set_pt srv pt) h evs
        | Throw what => Returned srv h (evs ++ [caught what])%list
        end
      else if (length =? 0)%N then
        Returned srv h (evs ++ [EvLog warn "MGMT: No JSON data received"])%list
      else
        Returned srv h (evs ++ [EvLog error "MGMT: Error JSON reception"])%list
    else if (msg =? "getptree")%string then
      let srv := set_pending srv true in
      match cond_wait (wakeups conn) srv evs with
      | (false, srv, evs) => Waiting srv h evs
      | (true, srv, evs) =>
          match write_json (m_pt srv) with
          | Ok text => Returned srv h (evs ++ [EvWrite text])%list
          | Throw what => Returned srv h (evs ++ [caught what])%list
          end
      end
    else
      Returned srv h (evs ++ [EvWrite ("Invalid command" ++ nl)])%list.

(** ** Reference renderings and predicates used in the statements *)

(** The label the state report shows for each classification. *)
Definition state_label (state : input_state_t) : string :=
  match state with
  | NoData => "NoData"
  | Unstable => "Unstable"
  | Silence => "Silent"
  | Streaming => "Streaming"
  end.

Definition state_json (label : string) : string :=
  "{ " ++ quoted "state" ++ " : " ++ quoted label ++ " }".

(** A connection that carries a [setptree] command followed by a
    non-empty line. *)
Definition setptree_request (conn : connection) : Prop :=
  boost_error conn = false /\
  in_message conn = "setptree" /\
  (0 < json_length conn)%N.

Definition getptree_request (conn : connection) : Prop :=
  boost_error conn = false /\
  in_message conn = "getptree".

(** The text of the id snapshot for a given list of ids. *)
Fixpoint config_items (first : bool) (ids : list string) : string :=
  match ids with
  | [] => EmptyString
  | id :: rest =>
      (if first then EmptyString else ", ")
        ++ " " ++ quoted id ++ " " ++ config_items false rest
  end.

Definition config_report (ids : list string) : string :=
  "{ " ++ quoted "config" ++ " : [" ++ nl
    ++ config_items true ids ++ "] }" ++ nl.

(** The calls producers make on the registry. *)
Inductive registry_call : Type :=
| CallRegister (inp : ptr)        (* registerInput(inp) *)
| CallUnregister (id : string).   (* unregisterInput(id) *)

Definition run_call (h : heap) (srv : ManagementServer) (c : registry_call)
  : option ManagementServer :=
  match c with
  | CallRegister inp => option_map fst (registerInput srv h inp)
  | CallUnregister id => Some (unregisterInput srv id)
  end.

Fixpoint run_calls (h : heap) (srv : ManagementServer)
    (calls : list registry_call) : option ManagementServer :=
  match calls with
  | [] => Some srv
  | c :: rest =>
      match run_call h srv c with
      | None => None
      | Some srv => run_calls h srv rest
      end
  end.

(** [id] has been registered by some call of the sequence and not
    unregistered by any later one. *)
Definition registered_after (h : heap) (calls : list registry_call)
    (id : string) : Prop :=
  exists pre inp s post,
    calls = (pre ++ CallRegister inp :: post)%list /\
    PositiveMap.find inp h = Some s /\
    get_name s = id /\
    ~ In (CallUnregister id) post.

(** The text of the value snapshot for given samples. *)
Fixpoint values_items (first : bool) (samples : list (string * InputStat))
  : string :=
  match samples with
  | [] => EmptyString
  | (id, s) :: rest =>
      (if first then EmptyString else " ," ++ nl)
        ++ " " ++ quoted id ++ " : " ++ encodeValuesJSON s
        ++ values_items false rest
  end.

Definition values_report (samples : list (string * InputStat)) : string :=
  "{ " ++ quoted "values" ++ " : {" ++ nl
    ++ values_items true samples ++ "}" ++ nl ++ "}" ++ nl.

(** The transient counters of [s] are at their reset values. *)
Definition transient_reset (s : InputStat) : Prop :=
  num_underruns s = 0 /\ num_overruns s = 0 /\
  peak_left s = 0 /\ peak_right s = 0 /\
  min_fill_buffer s = MIN_FILL_BUFFER_UNDEF /\
  max_fill_buffer s = MAX_FILL_BUFFER_UNDEF.

(** [s'] has the classifier memory (and the name) of [s]. *)
Definition same_classifier_memory (s s' : InputStat) : Prop :=
  m_glitch_counter s' = m_glitch_counter s /\
  m_silence_counter s' = m_silence_counter s /\
  m_time_last_event s' = m_time_last_event s /\
  m_time_last_buffer_nonempty s' = m_time_last_buffer_nonempty s /\
  m_buffer_empty s' = m_buffer_empty s /\
  m_name s' = m_name s.

(** Every registered pointer refers to a live object. *)
Definition registry_live (srv : ManagementServer) (h : heap) : Prop :=
  forall id p, SMap.MapsTo id p (m_inputStats srv) -> PositiveMap.In p h.

(** [InputStat::registerAtServer]: the object at [this] files itself in
    the server that [get_mgmt_server()] returns. *)
Definition registerAtServer (srv : ManagementServer) (h : heap) (this : ptr)
  : option (ManagementServer * list event) :=
  registerInput srv h this.

(** [InputStat::~InputStat]: the object unregisters its own name, then
    ceases to exist.  [None]: there is no object at [this]. *)
Definition destroy_InputStat (srv : ManagementServer) (h : heap) (this : ptr)
  : option (ManagementServer * heap) :=
  match PositiveMap.find this h with
  | None => None
  | Some s => Some (unregisterInput srv (m_name s), PositiveMap.remove this h)
  end.

(** Each key of the registry is the name of the live object it points
    to, as [registerInput] files every object under its own name. *)
Definition registry_named (srv : ManagementServer) (h : heap) : Prop :=
  forall id p,
    SMap.MapsTo id p (m_inputStats srv) ->
    exists s, PositiveMap.find p h = Some s /\ get_name s = id.

(** The objects behind the entries of the registry, in iteration order. *)
Fixpoint samples_of (h : heap) (entries : list (string * ptr))
  : list (string * InputStat) :=
  match entries with
  | [] => []
  | (id, p) :: rest =>
      match PositiveMap.find p h with
      | Some s => (id, s) :: samples_of h rest
      | None => samples_of h rest
      end
  end.

(** What one pass of the [getStateJSON] loop does to an object:
    [determineState] (through [encodeStateJSON]), then [reset]. *)
Definition state_visit (now : Z) (s : InputStat) : InputStat :=
  reset (snd (determineState now s)).

(** The classification of every sample at time [now]. *)
Definition classify (now : Z) (samples : list (string * InputStat))
  : list (string * input_state_t) :=
  map (fun x => (fst x, fst (determineState now (snd x)))) samples.

(** The text of the state snapshot for given classifications. *)
Fixpoint state_items (first : bool) (states : list (string * input_state_t))
  : string :=
  match states with
  | [] => EmptyString
  | (id, state) :: rest =>
      (if first then EmptyString else " ," ++ nl)
        ++ " " ++ quoted id ++ " : " ++ state_json (state_label state)
        ++ state_items false rest
  end.

Definition state_report (states : list (string * input_state_t)) : string :=
  "{" ++ nl ++ state_items true states ++ "}" ++ nl.

(** A command line that is none of the five commands. *)
Definition unknown_command (msg : string) : Prop :=
  msg <> "config" /\ msg <> "values" /\ msg <> "state" /\
  msg <> "setptree" /\ msg <> "getptree".

(** What the threads around the server do to it, one step at a time: the
    serving thread handles a connection, the engine calls into the bridge,
    a producer registers or unregisters. *)
Inductive action : Type :=
| ActServe (conn : connection)
| ActEngine (op : engine_op)
| ActCall (c : registry_call).

(** One step.  A handler left waiting in [getptree] has made its changes
    to the server; [None] is undefined behaviour. *)
Definition run_action (st : ManagementServer * heap) (a : action)
  : option (ManagementServer * heap) :=
  let '(srv, h) := st in
  match a with
  | ActServe conn =>
      match handle_accept conn srv h with
      | Returned srv h _ => Some (srv, h)
      | Waiting srv h _ => Some (srv, h)
      | Undefined => None
      end
  | ActEngine op => Some (fst (engine_step srv op), h)
  | ActCall c =>
      match run_call h srv c with
      | Some srv => Some (srv, h)
      | None => None
      end
  end.

Fixpoint run_actions (st : ManagementServer * heap) (acts : list action)
  : option (ManagementServer * heap) :=
  match acts with
  | [] => Some st
  | a :: rest =>
      match run_action st a with
      | Some st => run_actions st rest
      | None => None
      end
  end.

(** Two servers that differ at most in the bridge: the registry and the
    run flags are the same. *)
Definition same_outside_bridge (srv srv' : ManagementServer) : Prop :=
  m_inputStats srv' = m_inputStats srv /\
  m_running srv' = m_running srv /\
  m_fault srv' = m_fault srv.

(** The server, the store and the trace a handler leaves, whether it has
    returned or is left waiting. *)
Definition served (r : handler_result)
  : option (ManagementServer * heap * list event) :=
  match r with
  | Returned srv h evs => Some (srv, h, evs)
  | Waiting srv h evs => Some (srv, h, evs)
  | Undefined => None
  end.

(** Two stores in which every object has the same state at [now]. *)
Definition same_states (now : Z) (h h' : heap) : Prop :=
  forall p,
    option_map (fun s => fst (determineState now s)) (PositiveMap.find p h')
    = option_map (fun s => fst (determineState now s)) (PositiveMap.find p h).

(** ** The conversion to dB, in exact arithmetic *)

(** [std::numeric_limits<int16_t>::max()]. *)
Definition int16_max : Z := 32767.

(** [10^n <= (p / int16_max)^40], that is [n/2 <= 20*log10(p / int16_max)],
    with the powers of ten moved to the side that keeps them integral. *)
Definition ratio_ge (n p : Z) : Prop :=
  if 0 <=? n then 10 ^ n * int16_max ^ 40 <= p ^ 40
  else int16_max ^ 40 <= p ^ 40 * 10 ^ (- n).

(** [(p / int16_max)^40 <= 10^n], that is [20*log10(p / int16_max) <= n/2]. *)
Definition ratio_le (n p : Z) : Prop :=
  if 0 <=? n then p ^ 40 <= 10 ^ n * int16_max ^ 40
  else p ^ 40 * 10 ^ (- n) <= int16_max ^ 40.

(** [d] is [x = 20*log10(p / int16_max)] rounded to the nearest integer,
    halves away from zero as [round] does: [d - 1/2 <= x < d + 1/2] when
    [x >= 0] and [d - 1/2 < x <= d + 1/2] when [x < 0]. *)
Definition is_round_20log10 (p d : Z) : Prop :=
  if int16_max <=? p then
    ratio_ge (2 * d - 1) p /\ ~ ratio_ge (2 * d + 1) p
  else
    ~ ratio_le (2 * d - 1) p /\ ratio_le (2 * d + 1) p.

(** [j - 1/2 <= 20*log10(b / a)], for [j >= 1]. *)
Definition half_step_le (j a b : Z) : bool :=
  10 ^ (2 * j - 1) * a ^ 40 <=? b ^ 40.

(** Counts the [j], [j + 1], ... for which [half_step_le] holds, up to the
    first one for which it fails. *)
Fixpoint steps_from (fuel : nat) (j a b : Z) : Z :=
  match fuel with
  | O => 0
  | S fuel =>
      if half_step_le j a b then 1 + steps_from fuel (j + 1) a b else 0
  end.

(** For [0 < a <= b]: [20*log10(b / a)] rounded to the nearest integer,
    halves upwards.  More than [20 * log2 b] steps are never needed. *)
Definition steps (a b : Z) : Z :=
  steps_from (Z.to_nat (20 * Z.log2_up b + 1)) 1 a b.

(** Modelled from the spec: the value of
    [round(20*log10((double)p / int16_max))], which the source leaves to
    the floating-point unit and the C library ([round_20log10] of the
    header), taken as the spec's formula [round(20*log10(p/M))] evaluated
    exactly.  It is meant for [p > 0], where the logarithm exists. *)
Definition round_20log10_exact (p : Z) : Z :=
  if int16_max <=? p then steps int16_max p else - steps p int16_max.

(** The text of one value encoding, given the six numbers it shows. *)
Definition inputstat_json (min_fill max_fill dB_l dB_r underruns overruns : Z)
  : string :=
  "{ " ++ quoted "inputstat" ++ " : {"
    ++ quoted "min_fill" ++ ": " ++ show_Z min_fill ++ ", "
    ++ quoted "max_fill" ++ ": " ++ show_Z max_fill ++ ", "
    ++ quoted "peak_left" ++ ": " ++ show_Z dB_l ++ ", "
    ++ quoted "peak_right" ++ ": " ++ show_Z dB_r ++ ", "
    ++ quoted "num_underruns" ++ ": " ++ show_Z underruns ++ ", "
    ++ quoted "num_overruns" ++ ": " ++ show_Z overruns
    ++ " } }".


End Model.

(** * Concrete runs

    Sample values for what the headers provide, and small servers, stores
    and connections on which the statements below are instantiated. *)

Module Sample.

(** Stand-ins for the two library computations: a conversion that shows
    0 dB for every peak other than 0, and a writer that always throws. *)
Definition dB_unused (p : Z) : Z := 0.
Definition writer_unused (pt : ptree) : except string :=
  Throw "write_json is not reached".

Definition header : Header :=
  {| INPUT_COUNTER_RESET_TIME := 30;
     INPUT_NODATA_TIMEOUT := 30;
     INPUT_UNSTABLE_THRESHOLD := 3;
     INPUT_AUDIO_LEVEL_SILENCE_COUNT := 100;
     MIN_FILL_BUFFER_UNDEF := -1;
     MAX_FILL_BUFFER_UNDEF := 0;
     PACKAGE_NAME := "ODR-DabMux";
     VERSION := "0.7.5";
     round_20log10 := dB_unused;
     write_json := writer_unused |}.

Definition greeting : string := @welcome_msg header.

(** A configuration document and a server whose bridge holds another. *)
Definition doc : ptree :=
  PNode EmptyString
    [("general", PNode EmptyString [("nbframes", PNode "10" [])])].

Definition old_doc : ptree :=
  PNode EmptyString [("remotecontrol", PNode EmptyString [])].

Definition server : ManagementServer :=
  mkManagementServer (SMap.empty ptr) old_doc false false true false.

Definition stopped_server : ManagementServer :=
  mkManagementServer (SMap.empty ptr) old_doc true false false true.

Definition no_objects : heap := PositiveMap.empty InputStat.

(** Client connections. *)
Definition setptree_ok : connection :=
  mkConnection false "setptree" 48 (Ok doc) 0 [].

Definition setptree_bad : connection :=
  mkConnection false "setptree" 2
    (Throw "<unspecified file>(1): expected value") 0 [].

Definition getptree_quiet (n : nat) : connection :=
  mkConnection false "getptree" 0 (Throw EmptyString) 0 (repeat [] n).

Definition config_conn : connection :=
  mkConnection false "config" 0 (Throw EmptyString) 0 [].

(** Two inputs named eth0 (at addresses 1 and 3) and one named alsa. *)
Definition eth0 : InputStat :=
  mkInputStat "eth0" 12 480 2000 (-1500) 4 1 true 1000 1500 5 200.

Definition alsa : InputStat :=
  mkInputStat "alsa" 7 90 0 300 0 2 false 1990 1995 1 0.

Definition eth0_again : InputStat :=
  mkInputStat "eth0" 0 0 0 0 0 0 false 0 0 0 0.

Definition objects : heap :=
  PositiveMap.add 1%positive eth0
    (PositiveMap.add 2%positive alsa
       (PositiveMap.add 3%positive eth0_again (PositiveMap.empty InputStat))).

Definition registry : SMap.t ptr :=
  SMap.add "eth0" 1%positive (SMap.add "alsa" 2%positive (SMap.empty ptr)).

Definition busy_server : ManagementServer :=
  mkManagementServer registry old_doc false false true false.

Definition calls : list registry_call :=
  [ CallRegister 1; CallRegister 2; CallRegister 3;
    CallUnregister "alsa"; CallUnregister "none" ]%positive.

(** More sample data: a registry filled in another order, an object with
    the classifier memory of eth0 and other transient counters, the store
    a value snapshot leaves, and further connections. *)
Definition registry_other_order : SMap.t ptr :=
  SMap.add "alsa" 3%positive (SMap.add "eth0" 2%positive (SMap.empty ptr)).

Definition other_server : ManagementServer :=
  mkManagementServer registry_other_order ptree_clear true false false true.

Definition eth0_later : InputStat :=
  mkInputStat "eth0" 3 77 (-8) 9 0 6 true 1000 1500 5 200.

Definition values_json : string :=
  match @getValuesJSON header busy_server objects with
  | Some (json, _) => json
  | None => EmptyString
  end.

Definition objects_after_values : heap :=
  match @getValuesJSON header busy_server objects with
  | Some (_, h1) => h1
  | None => objects
  end.

Definition foobar_conn : connection :=
  mkConnection false "foobar" 0 (Throw EmptyString) 0 [].

Definition state_conn : connection :=
  mkConnection false "state" 0 (Throw EmptyString) 2000 [].

Definition getptree_published : connection :=
  mkConnection false "getptree" 0 (Throw EmptyString) 0
    [[]; []; [EngUpdate doc]; [EngRetrieve old_doc]].

Definition getptree_busy_engine : connection :=
  mkConnection false "getptree" 0 (Throw EmptyString) 0
    [[EngUpdate doc]; [EngRetrieve old_doc; EngUpdate old_doc]].

Definition stopped_quiet_server : ManagementServer :=
  mkManagementServer (SMap.empty ptr) old_doc false false false true.

Definition busy_trace : list action :=
  [ ActCall (CallRegister 1%positive);
    ActServe setptree_ok;
    ActEngine (EngRetrieve old_doc);
    ActServe setptree_bad;
    ActEngine (EngUpdate old_doc);
    ActServe state_conn;
    ActServe (getptree_quiet 2) ].


Definition server_after_calls : ManagementServer :=
  match run_calls objects server calls with
  | Some srv => srv
  | None => server
  end.

Definition after_busy_trace : ManagementServer * heap :=
  match @run_actions header (server, objects) busy_trace with
  | Some st => st
  | None => (server, objects)
  end.


(** The header with the exact conversion to dB. *)
Definition exact_header : Header :=
  {| INPUT_COUNTER_RESET_TIME := 30;
     INPUT_NODATA_TIMEOUT := 30;
     INPUT_UNSTABLE_THRESHOLD := 3;
     INPUT_AUDIO_LEVEL_SILENCE_COUNT := 100;
     MIN_FILL_BUFFER_UNDEF := -1;
     MAX_FILL_BUFFER_UNDEF := 0;
     PACKAGE_NAME := "ODR-DabMux";
     VERSION := "0.7.5";
     round_20log10 := round_20log10_exact;
     write_json := writer_unused |}.


End Sample.

Section Properties.

Context {hd : Header}.

#[local] Set Default Proof Using "Type".

(** * Properties *)

(** ** The classifier *)

Lemma set_glitch_counter_same (s : InputStat) :
  set_glitch_counter s (m_glitch_counter s) = s.
Proof. destruct s; reflexivity. Qed.

(** C4.  [determineState] first clears the glitch counter when the last
    event is older than the decay window (60 * INPUT_COUNTER_RESET_TIME
    seconds) and touches nothing else; then an empty buffer past the
    no-data timeout gives NoData whatever the two counters are; otherwise
    a glitch counter of at least the unstable threshold gives Unstable;
    otherwise a silence counter strictly above the silence count gives
    Silence; otherwise the state is Streaming. *)
Theorem determineState_priority (now : Z) (s : InputStat) :
  let decayed := 60 * INPUT_COUNTER_RESET_TIME < now - m_time_last_event s in
  let nodata :=
    m_buffer_empty s = true /\
    INPUT_NODATA_TIMEOUT < now - m_time_last_buffer_nonempty s in
  let state := fst (determineState now s) in
  let glitches := m_glitch_counter (snd (determineState now s)) in
  snd (determineState now s) = set_glitch_counter s glitches /\
  (decayed -> glitches = 0) /\
  (~ decayed -> glitches = m_glitch_counter s) /\
  (nodata -> state = NoData) /\
  (~ nodata -> INPUT_UNSTABLE_THRESHOLD <= glitches -> state = Unstable) /\
  (~ nodata -> glitches < INPUT_UNSTABLE_THRESHOLD ->
   INPUT_AUDIO_LEVEL_SILENCE_COUNT < m_silence_counter s ->
   state = Silence) /\
  (~ nodata -> glitches < INPUT_UNSTABLE_THRESHOLD ->
   m_silence_counter s <= INPUT_AUDIO_LEVEL_SILENCE_COUNT ->
   state = Streaming).
Proof.
  intros decayed nodata state glitches.
  subst decayed nodata state glitches. unfold determineState.
  destruct (Z.ltb_spec (60 * INPUT_COUNTER_RESET_TIME)
              (now - m_time_last_event s)) as [Hd | Hd]; cbn [fst snd].
  - (* the counter has decayed *)
    change (m_glitch_counter (set_glitch_counter s 0)) with 0.
    change (m_buffer_empty (set_glitch_counter s 0)) with (m_buffer_empty s).
    change (m_time_last_buffer_nonempty (set_glitch_counter s 0))
      with (m_time_last_buffer_nonempty s).
    change (m_silence_counter (set_glitch_counter s 0))
      with (m_silence_counter s).
    destruct (m_buffer_empty s);
      destruct (Z.ltb_spec INPUT_NODATA_TIMEOUT
                  (now - m_time_last_buffer_nonempty s));
      destruct (Z.leb_spec INPUT_UNSTABLE_THRESHOLD 0);
      destruct (Z.ltb_spec INPUT_AUDIO_LEVEL_SILENCE_COUNT
                  (m_silence_counter s));
      cbn [andb]; repeat split; intros;
        try reflexivity; try lia; try tauto; try discriminate;
        try (exfalso; intuition (discriminate || lia)).
  - (* the counter is kept *)
    rewrite set_glitch_counter_same.
    destruct (m_buffer_empty s);
      destruct (Z.ltb_spec INPUT_NODATA_TIMEOUT
                  (now - m_time_last_buffer_nonempty s));
      destruct (Z.leb_spec INPUT_UNSTABLE_THRESHOLD (m_glitch_counter s));
      destruct (Z.ltb_spec INPUT_AUDIO_LEVEL_SILENCE_COUNT
                  (m_silence_counter s));
      cbn [andb]; repeat split; intros;
        try reflexivity; try lia; try tauto; try discriminate;
        try (exfalso; intuition (discriminate || lia)).
Qed.

(** ** The state encoding *)

(** C9.  The state encoding of any sample at any time is the report of one
    of the four labels NoData, Unstable, Silent (for Silence) and
    Streaming, namely the label of the state the classifier returns; it is
    never the report of the fallback label Unknown. *)
Theorem encodeStateJSON_four_labels (now : Z) (s : InputStat) :
  fst (encodeStateJSON now s)
    = state_json (state_label (fst (determineState now s))) /\
  In (fst (encodeStateJSON now s))
     [ state_json "NoData"; state_json "Unstable";
       state_json "Silent"; state_json "Streaming" ] /\
  fst (encodeStateJSON now s) <> state_json "Unknown".
Proof.
  unfold encodeStateJSON.
  destruct (determineState now s) as [state s'] eqn:E; cbn [fst].
  destruct state; cbn [switch_state input_state_eqb state_label];
    (split; [reflexivity | split; [| vm_compute; discriminate]]);
    cbn [In]; repeat (first [left; reflexivity | right]).
Qed.

(** ** The property-tree handshake *)

(** Runs [handle_accept] up to the branch of the command [Hmsg] names. *)
Ltac serve Herr Hmsg :=
  unfold handle_accept; rewrite Herr, Hmsg;
  cbn [String.eqb Ascii.eqb Bool.eqb]; cbn zeta.

(** C10.  While the server loop is not running, [update_ptree] changes
    neither the tree nor the pending flag (nor anything else in the
    server) and notifies nobody. *)
Theorem update_ptree_not_running (srv : ManagementServer) (pt : ptree) :
  m_running srv = false ->
  update_ptree srv pt = (srv, []) /\
  m_pt (fst (update_ptree srv pt)) = m_pt srv /\
  m_pending (fst (update_ptree srv pt)) = m_pending srv /\
  notifications (snd (update_ptree srv pt)) = 0%nat.
Proof.
  intros Hrun. unfold update_ptree. rewrite Hrun. repeat split.
Qed.

Lemma handle_setptree (conn : connection) (srv : ManagementServer)
    (h : heap) :
  setptree_request conn ->
  handle_accept conn srv h =
    let evs := [EvLog info "RC: Accepted"; EvWrite welcome_msg] in
    match json_parsed conn with
    | Ok pt => Returned (set_pt srv pt) h evs
    | Throw what =>
        Returned (set_pt srv ptree_clear) h (evs ++ [caught what])%list
    end.
Proof.
  intros (Herr & Hmsg & Hlen). serve Herr Hmsg.
  apply N.ltb_lt in Hlen. rewrite Hlen.
  destruct (json_parsed conn); reflexivity.
Qed.

(** C1.  What a successful [setptree] does: the tree becomes the supplied
    document and only the greeting is written to the client, but
    [m_retrieve_pending] keeps the value it had and [m_condition] is not
    notified; from a server whose flag is false the flag is false
    afterwards. *)
Theorem setptree_success_leaves_flag (conn : connection)
    (srv : ManagementServer) (h : heap) (D : ptree) :
  setptree_request conn ->
  json_parsed conn = Ok D ->
  exists srv' evs,
    handle_accept conn srv h = Returned srv' h evs /\
    m_pt srv' = D /\
    written evs = [welcome_msg] /\
    m_retrieve_pending srv' = m_retrieve_pending srv /\
    notifications evs = 0%nat.
Proof.
  intros Hreq Hparse. rewrite (handle_setptree conn srv h Hreq), Hparse.
  cbn zeta. eexists; eexists; split; [reflexivity |].
  repeat split.
Qed.

Lemma cond_wait_quiet (n : nat) (srv : ManagementServer) (evs : list event) :
  m_pending srv = true ->
  m_retrieve_pending srv = false ->
  cond_wait (repeat [] n) srv evs = (false, srv, evs).
Proof.
  intros Hp Hr. revert evs.
  induction n as [| n IH]; intros evs; cbn [repeat cond_wait];
    rewrite Hp, Hr; cbn [andb negb engine_run].
  - reflexivity.
  - rewrite app_nil_r. apply IH.
Qed.

(** C2.  A [setptree] carrying [D] followed by a [getptree], with no
    engine activity at all: when [m_retrieve_pending] was false before the
    two requests, the [getptree] handler never leaves its wait loop,
    however often it is woken, and nothing but the greeting reaches the
    client, although the bridge does hold [D]. *)
Theorem setptree_then_getptree_blocks (conn1 conn2 : connection)
    (srv : ManagementServer) (h : heap) (D : ptree) (n : nat) :
  m_retrieve_pending srv = false ->
  setptree_request conn1 ->
  json_parsed conn1 = Ok D ->
  getptree_request conn2 ->
  wakeups conn2 = repeat [] n ->
  exists srv1 evs1 srv2 evs2,
    handle_accept conn1 srv h = Returned srv1 h evs1 /\
    handle_accept conn2 srv1 h = Waiting srv2 h evs2 /\
    m_pt srv2 = D /\
    written evs2 = [welcome_msg].
Proof.
  intros Hflag Hreq1 Hparse (Herr & Hmsg) Hquiet.
  rewrite (handle_setptree conn1 srv h Hreq1), Hparse. cbn zeta.
  exists (set_pt srv D), [EvLog info "RC: Accepted"; EvWrite welcome_msg].
  serve Herr Hmsg. rewrite Hquiet.
  rewrite cond_wait_quiet by (destruct srv; cbn in *; congruence).
  eexists; eexists. repeat split.
Qed.

(** Had the flag been true, the same [getptree] would return at once with
    the serialisation of the tree in the bridge. *)
Lemma getptree_when_flagged (conn : connection) (srv : ManagementServer)
    (h : heap) (text : string) :
  getptree_request conn ->
  m_retrieve_pending srv = true ->
  write_json (m_pt srv) = Ok text ->
  exists evs,
    handle_accept conn srv h = Returned (set_pending srv true) h evs /\
    written evs = [welcome_msg; text].
Proof.
  intros (Herr & Hmsg) Hflag Hw. serve Herr Hmsg.
  assert (Hc : forall wake evs,
             cond_wait wake (set_pending srv true) evs
             = (true, set_pending srv true, evs)).
  { intros [| ops wake] evs; cbn [cond_wait];
      change (m_retrieve_pending (set_pending srv true))
        with (m_retrieve_pending srv);
      rewrite Hflag; reflexivity. }
  rewrite Hc. change (m_pt (set_pending srv true)) with (m_pt srv).
  rewrite Hw. eexists; split; reflexivity.
Qed.

(** A publication by the engine during the wait ends it: the client then
    receives the engine's document, not the one of an earlier [setptree]. *)
Lemma getptree_after_publish (conn : connection) (srv : ManagementServer)
    (h : heap) (pt : ptree) (rest : list (list engine_op)) (text : string) :
  getptree_request conn ->
  m_retrieve_pending srv = false ->
  m_running srv = true ->
  wakeups conn = [EngUpdate pt] :: rest ->
  write_json pt = Ok text ->
  exists srv' evs,
    handle_accept conn srv h = Returned srv' h evs /\
    m_pt srv' = pt /\
    written evs = [welcome_msg; text].
Proof.
  intros (Herr & Hmsg) Hflag Hrun Hwake Hw. serve Herr Hmsg.
  rewrite Hwake. cbn [cond_wait engine_run engine_step].
  change (m_retrieve_pending (set_pending srv true))
    with (m_retrieve_pending srv).
  change (m_pending (set_pending srv true)) with true.
  rewrite Hflag. cbn [andb negb]. unfold update_ptree.
  change (m_running (set_pending srv true)) with (m_running srv).
  rewrite Hrun.
  destruct rest as [| ops rest']; cbn [cond_wait];
    cbn [m_pending set_pending set_pt andb];
    cbn [m_pt set_pending set_pt]; rewrite Hw;
    eexists; eexists; (split; [reflexivity | split; reflexivity]).
Qed.

(** C3 (as amended).  A [setptree] whose non-empty line fails to parse
    leaves the bridge's tree cleared: [m_pt.clear()] has run before the
    parser throws.  Nothing else in the server changes, the exception is
    logged and only the greeting is written. *)
Theorem setptree_malformed_clears_tree (conn : connection)
    (srv : ManagementServer) (h : heap) (what : string) :
  setptree_request conn ->
  json_parsed conn = Throw what ->
  handle_accept conn srv h =
    Returned (set_pt srv ptree_clear) h
      [EvLog info "RC: Accepted"; EvWrite welcome_msg; caught what] /\
  m_pt (set_pt srv ptree_clear) = ptree_clear.
Proof.
  intros Hreq Hparse. rewrite (handle_setptree conn srv h Hreq), Hparse.
  split; reflexivity.
Qed.

(** Without a further line ([read_until] returns 0) the tree is kept. *)
Lemma setptree_no_data_keeps_tree (conn : connection)
    (srv : ManagementServer) (h : heap) :
  boost_error conn = false ->
  in_message conn = "setptree" ->
  json_length conn = 0%N ->
  handle_accept conn srv h =
    Returned srv h
      [EvLog info "RC: Accepted"; EvWrite welcome_msg;
       EvLog warn "MGMT: No JSON data received"].
Proof.
  intros Herr Hmsg Hlen. unfold handle_accept.
  rewrite Herr, Hmsg, Hlen. reflexivity.
Qed.

(** ** The registry: membership and order of the id snapshot *)

Lemma In_snapshotIds (srv : ManagementServer) (id : string) :
  In id (snapshotIds srv) <-> SMap.In id (m_inputStats srv).
Proof.
  unfold snapshotIds. rewrite SMapF.elements_in_iff. split.
  - intros Hin. apply in_map_iff in Hin as ([k v] & Hk & Hin).
    cbn in Hk. subst k. exists v.
    apply InA_alt. exists (id, v). split; [| exact Hin].
    split; reflexivity.
  - intros (v & Hin). apply InA_alt in Hin as ([k w] & (Hk & Hv) & Hin).
    cbn in Hk, Hv. subst. apply in_map_iff. exists (k, w).
    split; [reflexivity | exact Hin].
Qed.

Lemma keys_sorted {A : Type} (l : list (string * A)) :
  Sorted (@SMap.lt_key A) l -> Sorted String_as_OT.lt (map fst l).
Proof.
  induction 1 as [| a l Hs IH Hhd]; cbn [map]; constructor.
  - exact IH.
  - destruct Hhd as [| b l' Hab]; cbn [map]; constructor. exact Hab.
Qed.

Lemma snapshotIds_sorted (srv : ManagementServer) :
  StronglySorted String_as_OT.lt (snapshotIds srv).
Proof.
  apply Sorted_StronglySorted.
  - intros x y z. apply String_as_OT.lt_trans.
  - apply keys_sorted, SMap.elements_3.
Qed.

Lemma strictly_sorted_NoDup (l : list string) :
  StronglySorted String_as_OT.lt l -> NoDup l.
Proof.
  induction 1 as [| a l Hs IH Hall]; constructor.
  - intros Hin. rewrite Forall_forall in Hall.
    apply (String_as_OT.lt_not_eq (Hall a Hin)). reflexivity.
  - exact IH.
Qed.

Lemma snapshotIds_NoDup (srv : ManagementServer) : NoDup (snapshotIds srv).
Proof. apply strictly_sorted_NoDup, snapshotIds_sorted. Qed.

Lemma count_1 (id : string) (m : SMap.t ptr) :
  (count id m =? 1) = true <-> SMap.In id m.
Proof.
  unfold count. rewrite SMapF.mem_in_iff.
  destruct (SMap.mem id m); cbn; split; congruence.
Qed.

Lemma count_not_1 (id : string) (m : SMap.t ptr) :
  (count id m =? 1) = false <-> ~ SMap.In id m.
Proof.
  rewrite <- count_1. destruct (count id m =? 1); split; congruence.
Qed.

Lemma append_assoc (a b c : string) : (a ++ b) ++ c = a ++ (b ++ c).
Proof. induction a as [| x a IH]; cbn; [| rewrite IH]; reflexivity. Qed.

Lemma append_nil_r (a : string) : a ++ EmptyString = a.
Proof. induction a as [| x a IH]; cbn; [| rewrite IH]; reflexivity. Qed.

Lemma config_loop_items (entries : list (string * ptr)) (i : Z)
    (ss : string) :
  0 <= i ->
  config_loop entries i ss
  = ss ++ config_items (negb (0 <? i)) (map fst entries).
Proof.
  revert i ss. induction entries as [| [id p] rest IH]; intros i ss Hi.
  - cbn. symmetry. apply append_nil_r.
  - cbn [config_loop map fst config_items]. rewrite IH by lia.
    replace (0 <? i + 1) with true by (symmetry; apply Z.ltb_lt; lia).
    cbn [negb]. unfold quoted.
    destruct (0 <? i); cbn [negb]; rewrite ?append_assoc; reflexivity.
Qed.

Lemma getStatConfigJSON_report (srv : ManagementServer) :
  getStatConfigJSON srv = config_report (snapshotIds srv).
Proof.
  unfold getStatConfigJSON, config_report, snapshotIds. cbn zeta.
  rewrite config_loop_items by lia. cbn [Z.ltb negb].
  rewrite ?append_assoc. reflexivity.
Qed.

(** C6.  Registering an object whose name is already a key of the registry
    returns normally with the server unchanged and one error-level log
    line about the double registration; the id snapshot (the same before
    and after) lists that name exactly once, and the entry still holds the
    pointer of the first registration. *)
Theorem registerInput_duplicate (srv : ManagementServer) (h : heap)
    (inp first : ptr) (s : InputStat) :
  PositiveMap.find inp h = Some s ->
  SMap.find (get_name s) (m_inputStats srv) = Some first ->
  registerInput srv h inp
    = Some (srv,
            [EvLog error
               ("Double registration in MGMT Server with id '"
                  ++ get_name s ++ "'")]) /\
  count_occ string_dec (snapshotIds srv) (get_name s) = 1%nat /\
  SMap.find (get_name s) (m_inputStats srv) = Some first /\
  getStatConfigJSON srv = config_report (snapshotIds srv).
Proof.
  intros Hlive Hfirst.
  assert (Hin : SMap.In (get_name s) (m_inputStats srv)).
  { exists first. apply SMapF.find_mapsto_iff. exact Hfirst. }
  repeat split.
  - unfold registerInput. rewrite Hlive. cbn zeta.
    apply count_1 in Hin. rewrite Hin. reflexivity.
  - apply NoDup_count_occ'; [apply snapshotIds_NoDup |].
    apply In_snapshotIds. exact Hin.
  - exact Hfirst.
  - apply getStatConfigJSON_report.
Qed.

(** ** The registry under sequences of calls *)

Lemma registered_after_cons (h : heap) (c : registry_call)
    (rest : list registry_call) (id : string) :
  registered_after h (c :: rest) id <->
  (exists inp s, c = CallRegister inp /\ PositiveMap.find inp h = Some s /\
                 get_name s = id /\ ~ In (CallUnregister id) rest)
  \/ registered_after h rest id.
Proof.
  unfold registered_after. split.
  - intros (pre & inp & s & post & Heq & Hs & Hn & Hpost).
    destruct pre as [| c' pre]; cbn in Heq; injection Heq as -> ->.
    + left. exists inp, s. auto.
    + right. exists pre, inp, s, post. auto.
  - intros [(inp & s & -> & Hs & Hn & Hpost)
           | (pre & inp & s & post & -> & Hs & Hn & Hpost)].
    + exists [], inp, s, rest. auto.
    + exists (c :: pre), inp, s, post. auto.
Qed.

Lemma registerInput_ids (srv srv' : ManagementServer) (h : heap) (inp : ptr)
    (s : InputStat) (evs : list event) (id : string) :
  PositiveMap.find inp h = Some s ->
  registerInput srv h inp = Some (srv', evs) ->
  SMap.In id (m_inputStats srv') <->
  get_name s = id \/ SMap.In id (m_inputStats srv).
Proof.
  intros Hs. unfold registerInput. rewrite Hs. cbn zeta.
  destruct (count (get_name s) (m_inputStats srv) =? 1) eqn:Hc;
    intros [= <- <-].
  - apply count_1 in Hc. split; [auto |].
    intros [<- | Hin]; assumption.
  - cbn [m_inputStats set_inputStats]. apply SMapF.add_in_iff.
Qed.

Lemma unregisterInput_ids (srv : ManagementServer) (id0 id : string) :
  SMap.In id (m_inputStats (unregisterInput srv id0)) <->
  id0 <> id /\ SMap.In id (m_inputStats srv).
Proof.
  unfold unregisterInput.
  destruct (count id0 (m_inputStats srv) =? 1) eqn:Hc.
  - cbn [m_inputStats set_inputStats]. apply SMapF.remove_in_iff.
  - apply count_not_1 in Hc. split; [| intros [_ Hin]; exact Hin].
    intros Hin. split; [| exact Hin]. intros ->. contradiction.
Qed.

(** From any registry: an id is a key afterwards exactly when the sequence
    registered it with no later unregistration, or it was a key before and
    the sequence never unregistered it. *)
Lemma run_calls_ids (h : heap) (calls : list registry_call) :
  forall (srv0 srv : ManagementServer) (id : string),
    run_calls h srv0 calls = Some srv ->
    SMap.In id (m_inputStats srv) <->
    registered_after h calls id \/
    (SMap.In id (m_inputStats srv0) /\ ~ In (CallUnregister id) calls).
Proof.
  induction calls as [| c rest IH]; intros srv0 srv id Hrun.
  - cbn in Hrun. injection Hrun as <-. split.
    + intros Hin. right. split; [exact Hin | intros []].
    + intros [(pre & inp & s & post & Heq & _) | [Hin _]];
        [destruct pre; discriminate | exact Hin].
  - cbn [run_calls] in Hrun.
    destruct (run_call h srv0 c) as [srv1 |] eqn:Hc; [| discriminate].
    rewrite (IH srv1 srv id Hrun), registered_after_cons.
    destruct c as [inp | id0]; cbn [run_call] in Hc.
    + destruct (registerInput srv0 h inp) as [[srv1' evs] |] eqn:Hr;
        [| discriminate].
      cbn in Hc. injection Hc as ->.
      assert (Hs : exists s, PositiveMap.find inp h = Some s).
      { unfold registerInput in Hr.
        destruct (PositiveMap.find inp h) as [s |]; [eauto | discriminate]. }
      destruct Hs as (s & Hs).
      rewrite (registerInput_ids srv0 srv1 h inp s evs id Hs Hr).
      split.
      * intros [Hreg | [[Hn | Hin] Hrest]]; auto.
        -- left. left. exists inp, s. auto.
        -- right. split; [exact Hin |].
           intros [Heq | Hin']; [discriminate | contradiction].
      * intros [[(inp' & s' & [= <-] & Hs' & Hn & Hrest) | Hreg]
               | [Hin Hrest]]; auto.
        -- rewrite Hs in Hs'. injection Hs' as <-. auto.
        -- right. split; [auto |]. intros Hin'. apply Hrest. now right.
    + injection Hc as <-. rewrite unregisterInput_ids. split.
      * intros [Hreg | [[Hne Hin] Hrest]]; auto.
        right. split; [exact Hin |].
        intros [[= Heq] | Hin']; [contradiction | contradiction].
      * intros [[(inp' & s' & Hc & _) | Hreg] | [Hin Hrest]];
          [discriminate | auto |].
        right. split; [split; [| exact Hin] |].
        -- intros ->. apply Hrest. now left.
        -- intros Hin'. apply Hrest. now right.
Qed.

Lemma run_calls_total (h : heap) (calls : list registry_call) :
  forall srv0,
    (forall inp, In (CallRegister inp) calls -> PositiveMap.In inp h) ->
    exists srv, run_calls h srv0 calls = Some srv.
Proof.
  induction calls as [| c rest IH]; intros srv0 Hlive.
  - exists srv0. reflexivity.
  - cbn [run_calls].
    assert (Hc : exists srv1, run_call h srv0 c = Some srv1).
    { destruct c as [inp | id0]; cbn [run_call]; [| eauto].
      destruct (Hlive inp (or_introl eq_refl)) as (s & Hs).
      apply PositiveMap.find_1 in Hs.
      unfold registerInput. rewrite Hs. cbn zeta.
      destruct (count (get_name s) (m_inputStats srv0) =? 1); cbn; eauto. }
    destruct Hc as (srv1 & ->). apply IH.
    intros inp Hin. apply Hlive. now right.
Qed.

Lemma handle_config (conn : connection) (srv : ManagementServer) (h : heap) :
  boost_error conn = false ->
  in_message conn = "config" ->
  handle_accept conn srv h
  = Returned srv h [EvLog info "RC: Accepted"; EvWrite welcome_msg;
                    EvWrite (getStatConfigJSON srv)].
Proof.
  intros Herr Hmsg. serve Herr Hmsg. reflexivity.
Qed.

(** C8.  Starting with an empty registry, any sequence of register and
    unregister calls on live objects runs to completion, and afterwards
    the id snapshot lists exactly the ids registered and not unregistered
    since, each once, in strictly increasing key order; it is rendered as
    the config report of that list, and serving the [config] command
    returns the server and every [InputStat] as they were. *)
Theorem snapshotIds_exact (h : heap) (srv0 : ManagementServer)
    (calls : list registry_call) :
  SMap.Empty (m_inputStats srv0) ->
  (forall inp, In (CallRegister inp) calls -> PositiveMap.In inp h) ->
  exists srv,
    run_calls h srv0 calls = Some srv /\
    (forall id, In id (snapshotIds srv) <-> registered_after h calls id) /\
    NoDup (snapshotIds srv) /\
    StronglySorted String_as_OT.lt (snapshotIds srv) /\
    getStatConfigJSON srv = config_report (snapshotIds srv) /\
    (forall conn,
        boost_error conn = false ->
        in_message conn = "config" ->
        exists evs,
          handle_accept conn srv h = Returned srv h evs /\
          written evs = [welcome_msg; getStatConfigJSON srv]).
Proof.
  intros Hempty Hlive.
  destruct (run_calls_total h calls srv0 Hlive) as (srv & Hrun).
  exists srv. split; [exact Hrun |]. split; [| split; [| split; [| split]]].
  - intros id. rewrite In_snapshotIds, (run_calls_ids h calls srv0 srv id Hrun).
    split; [| auto].
    intros [Hreg | [(p & Hin) _]]; [exact Hreg |].
    exfalso. exact (Hempty id p Hin).
  - apply snapshotIds_NoDup.
  - apply snapshotIds_sorted.
  - apply getStatConfigJSON_report.
  - intros conn Herr Hmsg. rewrite (handle_config conn srv h Herr Hmsg).
    eexists. split; reflexivity.
Qed.

(** ** The value snapshot *)

Lemma reset_idempotent (s : InputStat) : reset (reset s) = reset s.
Proof. reflexivity. Qed.

Lemma reset_transient (s : InputStat) : transient_reset (reset s).
Proof. repeat split. Qed.

Lemma reset_memory (s : InputStat) : same_classifier_memory s (reset s).
Proof. repeat split. Qed.

Lemma MapsTo_elements (srv : ManagementServer) (id : string) (p : ptr) :
  SMap.MapsTo id p (m_inputStats srv) <->
  In (id, p) (SMap.elements (m_inputStats srv)).
Proof.
  rewrite SMapF.elements_mapsto_iff, InA_alt. split.
  - intros ([k q] & (Hk & Hq) & Hin). cbn in Hk, Hq. subst. exact Hin.
  - intros Hin. exists (id, p). split; [split; reflexivity | exact Hin].
Qed.

Lemma values_loop_spec (entries : list (string * ptr)) :
  forall (i : Z) (ss : string) (h : heap),
    0 <= i ->
    (forall id p, In (id, p) entries -> PositiveMap.In p h) ->
    exists samples h',
      values_loop entries i ss h
      = Some (ss ++ values_items (negb (0 <? i)) samples, h') /\
      map fst samples = map fst entries /\
      (forall P : InputStat -> Prop,
          (forall s, P s -> P (reset s)) ->
          (forall id p s, In (id, p) entries ->
                          PositiveMap.find p h = Some s -> P s) ->
          Forall (fun x => P (snd x)) samples) /\
      (forall p,
          PositiveMap.find p h'
          = if existsb (Pos.eqb p) (map snd entries)
            then option_map reset (PositiveMap.find p h)
            else PositiveMap.find p h).
Proof.
  induction entries as [| [id p] rest IH]; intros i ss h Hi Hlive.
  - exists [], h. cbn. rewrite append_nil_r. repeat split. constructor.
  - destruct (Hlive id p (or_introl eq_refl)) as (s & Hs).
    apply PositiveMap.find_1 in Hs.
    cbn [values_loop]. rewrite Hs. cbn zeta.
    set (ss1 := ((if 0 <? i then ss ++ " ," ++ nl else ss)
                   ++ " " ++ dq ++ id ++ dq ++ " : ")
                  ++ encodeValuesJSON s).
    set (h1 := PositiveMap.add p (reset s) h).
    destruct (IH (i + 1) ss1 h1) as (samples & h' & Hloop & Hids & HP & Hheap).
    { lia. }
    { intros id' q Hin. apply PMapF.add_in_iff. right.
      apply (Hlive id' q). now right. }
    exists ((id, s) :: samples), h'. split; [| split; [| split]].
    + rewrite Hloop. f_equal. f_equal.
      replace (0 <? i + 1) with true by (symmetry; apply Z.ltb_lt; lia).
      subst ss1. cbn [negb values_items]. unfold quoted.
      destruct (0 <? i); cbn [negb]; rewrite ?append_assoc; reflexivity.
    + cbn [map fst]. now rewrite Hids.
    + intros P Hreset Hall. constructor.
      * cbn [snd]. apply (Hall id p s); [now left | exact Hs].
      * apply HP; [exact Hreset |].
        intros id' q s' Hin Hfind. subst h1.
        destruct (Pos.eq_dec p q) as [<- | Hne].
        -- rewrite PMapF.add_eq_o in Hfind by reflexivity.
           injection Hfind as <-. apply Hreset.
           apply (Hall id p s); [now left | exact Hs].
        -- rewrite PMapF.add_neq_o in Hfind by exact Hne.
           apply (Hall id' q s'); [now right | exact Hfind].
    + intros q. rewrite Hheap. subst h1. cbn [map snd existsb].
      destruct (Pos.eqb_spec q p) as [-> | Hne]; cbn [orb].
      * rewrite PMapF.add_eq_o by reflexivity. rewrite Hs. cbn [option_map].
        destruct (existsb (Pos.eqb p) (map snd rest)); reflexivity.
      * rewrite PMapF.add_neq_o by congruence. reflexivity.
Qed.

Lemma existsb_registered (entries : list (string * ptr)) (id : string)
    (p : ptr) :
  In (id, p) entries -> existsb (Pos.eqb p) (map snd entries) = true.
Proof.
  intros Hin. apply existsb_exists. exists p. split.
  - apply in_map_iff. exists (id, p). auto.
  - apply Pos.eqb_refl.
Qed.

(** C5.  With every registered object live, two value snapshots in a row
    both succeed.  The second one reports, for every registered id, a
    sample whose underrun and overrun counts and both peaks are 0 and
    whose fill extrema are at their reset values; every registered object
    is left in that state by either call.  Neither call changes the glitch
    counter, the silence counter or the time stamps of any object. *)
Theorem getValuesJSON_destructive (srv : ManagementServer) (h : heap) :
  registry_live srv h ->
  exists json1 h1 json2 h2 samples,
    getValuesJSON srv h = Some (json1, h1) /\
    getValuesJSON srv h1 = Some (json2, h2) /\
    json2 = values_report samples /\
    map fst samples = snapshotIds srv /\
    Forall (fun x => transient_reset (snd x)) samples /\
    (forall id p,
        SMap.MapsTo id p (m_inputStats srv) ->
        exists s1,
          PositiveMap.find p h1 = Some s1 /\
          PositiveMap.find p h2 = Some s1 /\
          transient_reset s1) /\
    (forall p s,
        PositiveMap.find p h = Some s ->
        exists s1 s2,
          PositiveMap.find p h1 = Some s1 /\
          PositiveMap.find p h2 = Some s2 /\
          same_classifier_memory s s1 /\
          same_classifier_memory s s2).
Proof.
  intros Hlive. unfold getValuesJSON. cbn zeta.
  set (entries := SMap.elements (m_inputStats srv)).
  set (ss0 := "{ " ++ quoted "values" ++ " : {" ++ nl).
  assert (Hlive0 : forall id p, In (id, p) entries -> PositiveMap.In p h).
  { intros id p Hin. apply (Hlive id p), MapsTo_elements, Hin. }
  destruct (values_loop_spec entries 0 ss0 h) as
      (samples1 & h1 & Hloop1 & Hids1 & HP1 & Hheap1); [lia | exact Hlive0 |].
  assert (Hlive1 : forall id p, In (id, p) entries -> PositiveMap.In p h1).
  { intros id p Hin. destruct (Hlive0 id p Hin) as (s & Hs).
    apply PositiveMap.find_1 in Hs. exists (reset s).
    apply PositiveMap.find_2. rewrite Hheap1.
    rewrite (existsb_registered entries id p Hin), Hs. reflexivity. }
  destruct (values_loop_spec entries 0 ss0 h1) as
      (samples2 & h2 & Hloop2 & Hids2 & HP2 & Hheap2); [lia | exact Hlive1 |].
  eexists; exists h1; eexists; exists h2, samples2.
  rewrite Hloop1, Hloop2.
  split; [reflexivity |]. split; [reflexivity |].
  split; [| split; [| split; [| split]]].
  - unfold values_report. subst ss0. cbn [Z.ltb negb].
    rewrite ?append_assoc. reflexivity.
  - exact Hids2.
  - apply (HP2 transient_reset).
    + intros s _. apply reset_transient.
    + intros id p s Hin Hfind. rewrite Hheap1 in Hfind.
      rewrite (existsb_registered entries id p Hin) in Hfind.
      destruct (PositiveMap.find p h) as [s0 |]; [| discriminate].
      injection Hfind as <-. apply reset_transient.
  - intros id p Hmaps. apply MapsTo_elements in Hmaps. fold entries in Hmaps.
    destruct (Hlive0 id p Hmaps) as (s & Hs).
    apply PositiveMap.find_1 in Hs. exists (reset s).
    rewrite Hheap2, Hheap1, (existsb_registered entries id p Hmaps), Hs.
    repeat split.
  - intros p s Hs. rewrite Hheap2, Hheap1, Hs.
    match goal with
    | |- context [existsb ?f ?l] => destruct (existsb f l)
    end; cbn [option_map].
    + exists (reset s), (reset s).
      split; [reflexivity | split; [reflexivity |]].
      split; apply reset_memory.
    + exists s, s. repeat split.
Qed.


(** The silence branch of the conversion involves no floating point. *)
Lemma peak_dB_zero : peak_dB 0 = -90.
Proof. reflexivity. Qed.

(** * Further properties of the registry *)

Lemma strictly_sorted_unique (l1 l2 : list string) :
  StronglySorted String_as_OT.lt l1 ->
  StronglySorted String_as_OT.lt l2 ->
  (forall x, In x l1 <-> In x l2) ->
  l1 = l2.
Proof.
  intros H1. revert l2.
  induction H1 as [| a l1 Hs1 IH Hall1]; intros l2 H2 Hsame.
  - destruct l2 as [| b l2]; [reflexivity |].
    destruct (proj2 (Hsame b) (or_introl eq_refl)).
  - destruct H2 as [| b l2 Hs2 Hall2].
    + destruct (proj1 (Hsame a) (or_introl eq_refl)).
    + rewrite Forall_forall in Hall1, Hall2.
      assert (Hab : a = b).
      { destruct (proj1 (Hsame a) (or_introl eq_refl)) as [Hba | Ha];
          [now symmetry |].
        destruct (proj2 (Hsame b) (or_introl eq_refl)) as [Hab | Hb];
          [exact Hab |].
        exfalso.
        apply (String_as_OT.lt_not_eq
                 (String_as_OT.lt_trans (Hall1 b Hb) (Hall2 a Ha))).
        reflexivity. }
      subst b. f_equal. apply IH; [exact Hs2 |].
      intros x. split; intros Hx.
      * destruct (proj1 (Hsame x) (or_intror Hx)) as [<- | Hx2];
          [| exact Hx2].
        exfalso. apply (String_as_OT.lt_not_eq (Hall1 a Hx)). reflexivity.
      * destruct (proj2 (Hsame x) (or_intror Hx)) as [<- | Hx1];
          [| exact Hx1].
        exfalso. apply (String_as_OT.lt_not_eq (Hall2 a Hx)). reflexivity.
Qed.

Lemma isInputRegistered_true (srv : ManagementServer) (id : string) :
  SMap.In id (m_inputStats srv) -> isInputRegistered srv id = (true, []).
Proof.
  intros Hin. unfold isInputRegistered, count.
  apply SMapF.mem_in_iff in Hin. rewrite Hin. reflexivity.
Qed.

Lemma isInputRegistered_false (srv : ManagementServer) (id : string) :
  ~ SMap.In id (m_inputStats srv) ->
  isInputRegistered srv id
  = (false,
     [EvLog error
        ("Management Server: id '" ++ id ++ "' does was not registered")]).
Proof.
  intros Hin. unfold isInputRegistered, count.
  rewrite SMapF.mem_in_iff in Hin.
  destruct (SMap.mem id (m_inputStats srv)); [congruence | reflexivity].
Qed.


(** X2.  Registering a live object whose name is not yet a key returns
    without a log line; afterwards the name is a key that maps to the
    object, [isInputRegistered] finds it, every other key keeps its entry,
    the id snapshot gains exactly that name, and the bridge and the run
    flags are untouched. *)
Theorem registerInput_fresh (srv : ManagementServer) (h : heap) (inp : ptr)
    (s : InputStat) :
  PositiveMap.find inp h = Some s ->
  ~ In (get_name s) (snapshotIds srv) ->
  exists srv',
    registerInput srv h inp = Some (srv', []) /\
    SMap.find (get_name s) (m_inputStats srv') = Some inp /\
    isInputRegistered srv' (get_name s) = (true, []) /\
    (forall id, id <> get_name s ->
                SMap.find id (m_inputStats srv')
                = SMap.find id (m_inputStats srv)) /\
    (forall id, In id (snapshotIds srv') <->
                id = get_name s \/ In id (snapshotIds srv)) /\
    (m_pt srv', m_pending srv', m_retrieve_pending srv',
     m_running srv', m_fault srv')
    = (m_pt srv, m_pending srv, m_retrieve_pending srv,
       m_running srv, m_fault srv).
Proof.
  intros Hs Hfresh. rewrite In_snapshotIds in Hfresh.
  exists (set_inputStats srv (SMap.add (get_name s) inp (m_inputStats srv))).
  assert (Hreg : registerInput srv h inp
                 = Some (set_inputStats srv
                           (SMap.add (get_name s) inp (m_inputStats srv)),
                         [])).
  { unfold registerInput. rewrite Hs. cbn zeta.
    apply count_not_1 in Hfresh. rewrite Hfresh. reflexivity. }
  split; [exact Hreg |]. cbn [m_inputStats set_inputStats].
  split; [apply SMapF.add_eq_o; reflexivity |].
  split.
  { apply isInputRegistered_true. cbn [m_inputStats set_inputStats].
    apply SMapF.add_in_iff. now left. }
  split.
  { intros id Hne. apply SMapF.add_neq_o. congruence. }
  split; [| reflexivity].
  intros id. rewrite !In_snapshotIds.
  rewrite (registerInput_ids srv _ h inp s [] id Hs Hreg).
  split; (intros [Heq | Hin]; [left; now symmetry | now right]).
Qed.

(** X3.  After [unregisterInput] the id is no key any more: the lookup
    fails, the id snapshot does not list it and [isInputRegistered]
    answers false.  Every other key keeps its entry, and when the id was
    no key before, the server is returned as it was. *)
Theorem unregisterInput_removes (srv : ManagementServer) (id : string) :
  SMap.find id (m_inputStats (unregisterInput srv id)) = None /\
  ~ In id (snapshotIds (unregisterInput srv id)) /\
  fst (isInputRegistered (unregisterInput srv id) id) = false /\
  (forall id', id' <> id ->
               SMap.find id' (m_inputStats (unregisterInput srv id))
               = SMap.find id' (m_inputStats srv)) /\
  (~ In id (snapshotIds srv) -> unregisterInput srv id = srv).
Proof.
  assert (Hout : ~ SMap.In id (m_inputStats (unregisterInput srv id))).
  { rewrite unregisterInput_ids. intros [Hne _]. now apply Hne. }
  split; [| split; [| split; [| split]]].
  - apply SMapF.not_find_in_iff. exact Hout.
  - rewrite In_snapshotIds. exact Hout.
  - rewrite (isInputRegistered_false _ id Hout). reflexivity.
  - intros id' Hne. unfold unregisterInput.
    destruct (count id (m_inputStats srv) =? 1); [| reflexivity].
    cbn [m_inputStats set_inputStats]. apply SMapF.remove_neq_o. congruence.
  - rewrite In_snapshotIds. intros Habsent.
    unfold unregisterInput. apply count_not_1 in Habsent.
    rewrite Habsent. reflexivity.
Qed.

(** X4.  Registering an object under a fresh name and unregistering that
    name again restores the registry: the same entry for every key, the
    same id snapshot and the same config report. *)
Theorem register_unregister_roundtrip (srv : ManagementServer) (h : heap)
    (inp : ptr) (s : InputStat) :
  PositiveMap.find inp h = Some s ->
  ~ In (get_name s) (snapshotIds srv) ->
  exists srv1,
    registerInput srv h inp = Some (srv1, []) /\
    SMap.Equal (m_inputStats (unregisterInput srv1 (get_name s)))
               (m_inputStats srv) /\
    snapshotIds (unregisterInput srv1 (get_name s)) = snapshotIds srv /\
    getStatConfigJSON (unregisterInput srv1 (get_name s))
    = getStatConfigJSON srv.
Proof.
  intros Hs Hfresh.
  assert (Hfresh' := Hfresh). rewrite In_snapshotIds in Hfresh'.
  exists (set_inputStats srv (SMap.add (get_name s) inp (m_inputStats srv))).
  assert (Hreg : registerInput srv h inp
                 = Some (set_inputStats srv
                           (SMap.add (get_name s) inp (m_inputStats srv)),
                         [])).
  { unfold registerInput. rewrite Hs. cbn zeta.
    apply count_not_1 in Hfresh'. rewrite Hfresh'. reflexivity. }
  split; [exact Hreg |].
  set (srv1 := set_inputStats srv _) in *.
  assert (Hids : snapshotIds (unregisterInput srv1 (get_name s))
                 = snapshotIds srv).
  { apply strictly_sorted_unique; try apply snapshotIds_sorted.
    intros id. rewrite !In_snapshotIds, unregisterInput_ids.
    rewrite (registerInput_ids srv srv1 h inp s [] id Hs Hreg).
    split.
    - intros [Hne [Heq | Hin]]; [contradiction | exact Hin].
    - intros Hin. split; [| now right]. intros <-. contradiction. }
  split; [| split; [exact Hids |]].
  - intros id. unfold unregisterInput.
    assert (Hc : (count (get_name s) (m_inputStats srv1) =? 1) = true).
    { apply count_1. subst srv1. cbn [m_inputStats set_inputStats].
      apply SMapF.add_in_iff. now left. }
    rewrite Hc. subst srv1. cbn [m_inputStats set_inputStats].
    destruct (string_dec (get_name s) id) as [<- | Hne].
    + rewrite SMapF.remove_eq_o by reflexivity.
      symmetry. apply SMapF.not_find_in_iff. exact Hfresh'.
    + rewrite SMapF.remove_neq_o, SMapF.add_neq_o by exact Hne.
      reflexivity.
  - rewrite !getStatConfigJSON_report, Hids. reflexivity.
Qed.

Lemma registerInput_named (srv srv' : ManagementServer) (h : heap)
    (inp : ptr) (evs : list event) :
  registry_named srv h ->
  registerInput srv h inp = Some (srv', evs) ->
  registry_named srv' h.
Proof.
  intros Hnamed. unfold registerInput.
  destruct (PositiveMap.find inp h) as [s |] eqn:Hs; [| discriminate].
  cbn zeta.
  destruct (count (get_name s) (m_inputStats srv) =? 1);
    intros [= <- <-]; [exact Hnamed |].
  intros id p Hmaps. cbn [m_inputStats set_inputStats] in Hmaps.
  apply SMapF.add_mapsto_iff in Hmaps as [[<- <-] | [_ Hmaps]].
  - exists s. auto.
  - apply (Hnamed id p Hmaps).
Qed.

Lemma unregisterInput_named (srv : ManagementServer) (h : heap)
    (id0 : string) :
  registry_named srv h -> registry_named (unregisterInput srv id0) h.
Proof.
  intros Hnamed. unfold unregisterInput.
  destruct (count id0 (m_inputStats srv) =? 1); [| exact Hnamed].
  intros id p Hmaps. cbn [m_inputStats set_inputStats] in Hmaps.
  apply SMapF.remove_mapsto_iff in Hmaps as [_ Hmaps].
  apply (Hnamed id p Hmaps).
Qed.

(** X5.  The calls of the producers keep the registry well named: when
    every key is the name of the live object behind it before a sequence
    of register and unregister calls, it is so afterwards; hence all
    registered pointers are live and no object is filed under two ids. *)
Theorem run_calls_named (h : heap) (calls : list registry_call)
    (srv0 srv : ManagementServer) :
  registry_named srv0 h ->
  run_calls h srv0 calls = Some srv ->
  registry_named srv h /\
  registry_live srv h /\
  (forall id1 id2 p,
      SMap.MapsTo id1 p (m_inputStats srv) ->
      SMap.MapsTo id2 p (m_inputStats srv) ->
      id1 = id2).
Proof.
  intros Hnamed Hrun.
  assert (H : registry_named srv h).
  { revert srv0 Hnamed Hrun.
    induction calls as [| c rest IH]; intros srv0 Hnamed Hrun.
    - injection Hrun as <-. exact Hnamed.
    - cbn [run_calls] in Hrun.
      destruct (run_call h srv0 c) as [srv1 |] eqn:Hc; [| discriminate].
      apply (IH srv1); [| exact Hrun].
      destruct c as [inp | id0]; cbn [run_call] in Hc.
      + destruct (registerInput srv0 h inp) as [[srv1' evs] |] eqn:Hr;
          [| discriminate].
        injection Hc as <-.
        apply (registerInput_named srv0 srv1' h inp evs Hnamed Hr).
      + injection Hc as <-. apply unregisterInput_named, Hnamed. }
  split; [exact H |]. split.
  - intros id p Hmaps. destruct (H id p Hmaps) as (s & Hs & _).
    exists s. apply PositiveMap.find_2. exact Hs.
  - intros id1 id2 p H1 H2.
    destruct (H id1 p H1) as (s1 & Hs1 & <-).
    destruct (H id2 p H2) as (s2 & Hs2 & <-).
    congruence.
Qed.


(** * Further properties of the snapshots *)

Lemma samples_of_add_other (h : heap) (p : ptr) (x : InputStat)
    (entries : list (string * ptr)) :
  ~ In p (map snd entries) ->
  samples_of (PositiveMap.add p x h) entries = samples_of h entries.
Proof.
  induction entries as [| [id q] rest IH]; intros Hout; [reflexivity |].
  cbn [samples_of]. cbn [map snd In] in Hout.
  rewrite PMapF.add_neq_o by (intros ->; apply Hout; now left).
  rewrite IH by (intros Hin; apply Hout; now right). reflexivity.
Qed.

Lemma samples_of_ids (h : heap) (entries : list (string * ptr)) :
  (forall id p, In (id, p) entries -> PositiveMap.In p h) ->
  map fst (samples_of h entries) = map fst entries.
Proof.
  induction entries as [| [id p] rest IH]; intros Hlive; [reflexivity |].
  cbn [samples_of]. destruct (Hlive id p (or_introl eq_refl)) as (s & Hs).
  apply PositiveMap.find_1 in Hs. rewrite Hs. cbn [map fst].
  rewrite IH; [reflexivity |]. intros id' q Hin. apply (Hlive id' q).
  now right.
Qed.

Lemma samples_of_In (h : heap) (entries : list (string * ptr)) (id : string)
    (s : InputStat) :
  In (id, s) (samples_of h entries) <->
  exists p, In (id, p) entries /\ PositiveMap.find p h = Some s.
Proof.
  induction entries as [| [id' q] rest IH]; cbn [samples_of].
  - split; [intros [] | intros (p & [] & _)].
  - destruct (PositiveMap.find q h) as [s' |] eqn:Hq.
    + cbn [In]. rewrite IH. split.
      * intros [[= <- <-] | (p & Hin & Hp)].
        -- exists q. split; [now left | exact Hq].
        -- exists p. split; [now right | exact Hp].
      * intros (p & [[= <- <-] | Hin] & Hp).
        -- left. congruence.
        -- right. exists p. auto.
    + rewrite IH. split.
      * intros (p & Hin & Hp). exists p. split; [now right | exact Hp].
      * intros (p & [[= <- <-] | Hin] & Hp); [congruence |].
        exists p. auto.
Qed.

Lemma pointers_NoDup (entries : list (string * ptr)) :
  NoDup (map fst entries) ->
  (forall id1 id2 p, In (id1, p) entries -> In (id2, p) entries ->
                     id1 = id2) ->
  NoDup (map snd entries).
Proof.
  induction entries as [| [id p] rest IH]; intros Hkeys Hinj;
    cbn [map fst snd]; constructor.
  - intros Hin. apply in_map_iff in Hin as ([id' q] & Hq & Hin).
    cbn in Hq. subst q.
    assert (id = id') by (apply (Hinj id id' p); [now left | now right]).
    subst id'. inversion Hkeys as [| ? ? Hnot _]; subst. apply Hnot.
    apply in_map_iff. exists (id, p). auto.
  - apply IH.
    + now inversion Hkeys.
    + intros id1 id2 q H1 H2. apply (Hinj id1 id2 q); now right.
Qed.

Lemma existsb_pointer (p : ptr) (entries : list (string * ptr)) :
  existsb (Pos.eqb p) (map snd entries) = true <->
  exists id, In (id, p) entries.
Proof.
  rewrite existsb_exists. split.
  - intros (q & Hin & Heq). apply Pos.eqb_eq in Heq. subst q.
    apply in_map_iff in Hin as ([id q] & Hq & Hin). cbn in Hq. subst q.
    now exists id.
  - intros (id & Hin). exists p. split; [| apply Pos.eqb_refl].
    apply in_map_iff. exists (id, p). auto.
Qed.

Lemma values_loop_exact (entries : list (string * ptr)) :
  forall (i : Z) (ss : string) (h : heap),
    0 <= i ->
    NoDup (map snd entries) ->
    (forall id p, In (id, p) entries -> PositiveMap.In p h) ->
    exists h',
      values_loop entries i ss h
      = Some (ss ++ values_items (negb (0 <? i)) (samples_of h entries), h').
Proof.
  induction entries as [| [id p] rest IH]; intros i ss h Hi Hnd Hlive.
  - exists h. cbn. now rewrite append_nil_r.
  - destruct (Hlive id p (or_introl eq_refl)) as (s & Hs).
    apply PositiveMap.find_1 in Hs.
    cbn [values_loop samples_of]. rewrite Hs. cbn zeta.
    cbn [map snd] in Hnd. inversion Hnd as [| ? ? Hout Hnd']; subst.
    set (ss1 := ((if 0 <? i then ss ++ " ," ++ nl else ss)
                   ++ " " ++ dq ++ id ++ dq ++ " : ")
                  ++ encodeValuesJSON s).
    destruct (IH (i + 1) ss1 (PositiveMap.add p (reset s) h))
      as (h' & Hloop); [lia | exact Hnd' | |].
    { intros id' q Hin. apply PMapF.add_in_iff. right.
      apply (Hlive id' q). now right. }
    exists h'. rewrite Hloop, (samples_of_add_other h p (reset s) rest Hout).
    f_equal. f_equal.
    replace (0 <? i + 1) with true by (symmetry; apply Z.ltb_lt; lia).
    subst ss1. cbn [negb values_items]. unfold quoted.
    destruct (0 <? i); cbn [negb]; rewrite ?append_assoc; reflexivity.
Qed.

(** X6.  On a well-named registry the value snapshot reports, in key
    order, the counters each registered object holds at the time of the
    call; afterwards every registered object is the [reset] of what it
    was and no other object has changed. *)
Theorem getValuesJSON_exact (srv : ManagementServer) (h : heap) :
  registry_named srv h ->
  let samples := samples_of h (SMap.elements (m_inputStats srv)) in
  exists h',
    getValuesJSON srv h = Some (values_report samples, h') /\
    map fst samples = snapshotIds srv /\
    (forall id s,
        In (id, s) samples <->
        exists p, SMap.MapsTo id p (m_inputStats srv) /\
                  PositiveMap.find p h = Some s) /\
    (forall id p,
        SMap.MapsTo id p (m_inputStats srv) ->
        exists s, PositiveMap.find p h = Some s /\
                  PositiveMap.find p h' = Some (reset s)) /\
    (forall p,
        (forall id, ~ SMap.MapsTo id p (m_inputStats srv)) ->
        PositiveMap.find p h' = PositiveMap.find p h).
Proof.
  intros Hnamed samples. subst samples.
  set (entries := SMap.elements (m_inputStats srv)).
  assert (Hlive : forall id p, In (id, p) entries -> PositiveMap.In p h).
  { intros id p Hin. apply MapsTo_elements in Hin.
    destruct (Hnamed id p Hin) as (s & Hs & _).
    exists s. apply PositiveMap.find_2, Hs. }
  assert (Hnd : NoDup (map snd entries)).
  { apply pointers_NoDup; [apply snapshotIds_NoDup |].
    intros id1 id2 p H1 H2. apply MapsTo_elements in H1, H2.
    destruct (Hnamed id1 p H1) as (s1 & Hs1 & <-).
    destruct (Hnamed id2 p H2) as (s2 & Hs2 & <-). congruence. }
  set (ss0 := "{ " ++ quoted "values" ++ " : {" ++ nl).
  destruct (values_loop_exact entries 0 ss0 h) as (h' & Hloop);
    [lia | exact Hnd | exact Hlive |].
  destruct (values_loop_spec entries 0 ss0 h) as
      (samples' & h'' & Hloop' & _ & _ & Hheap); [lia | exact Hlive |].
  assert (h'' = h') by congruence. subst h''.
  exists h'. split; [| split; [| split; [| split]]].
  - unfold getValuesJSON. cbn zeta. fold entries. fold ss0. rewrite Hloop.
    unfold values_report. subst ss0. cbn [Z.ltb negb].
    rewrite ?append_assoc. reflexivity.
  - apply samples_of_ids, Hlive.
  - intros id s. rewrite samples_of_In. split.
    + intros (p & Hin & Hp). exists p. split; [| exact Hp].
      apply MapsTo_elements, Hin.
    + intros (p & Hmaps & Hp). exists p. split; [| exact Hp].
      apply MapsTo_elements, Hmaps.
  - intros id p Hmaps. apply MapsTo_elements in Hmaps. fold entries in Hmaps.
    destruct (Hlive id p Hmaps) as (s & Hs). apply PositiveMap.find_1 in Hs.
    exists s. split; [exact Hs |].
    rewrite Hheap, (existsb_registered entries id p Hmaps), Hs. reflexivity.
  - intros p Hout. rewrite Hheap.
    match goal with
    | |- context [existsb ?f ?l] => destruct (existsb f l) eqn:He
    end; [| reflexivity].
    apply existsb_pointer in He as (id & Hin).
    exfalso. apply (Hout id), MapsTo_elements, Hin.
Qed.

(** ** The classifier and the state snapshot *)

Lemma determineState_twice (now : Z) (s : InputStat) :
  determineState now (snd (determineState now s)) = determineState now s.
Proof.
  unfold determineState.
  destruct (60 * INPUT_COUNTER_RESET_TIME <? now - m_time_last_event s)
    eqn:Hd; cbn [snd].
  - change (m_time_last_event (set_glitch_counter s 0))
      with (m_time_last_event s).
    rewrite Hd. reflexivity.
  - rewrite Hd. reflexivity.
Qed.

(** X7.  Classifying twice at the same instant changes nothing more: the
    second [determineState] returns the same state and leaves the object
    as the first one left it. *)
Theorem determineState_idempotent (now : Z) (s : InputStat) :
  determineState now (snd (determineState now s)) = determineState now s.
Proof. exact (determineState_twice now s). Qed.

Lemma determineState_reset (now : Z) (s : InputStat) :
  determineState now (reset s)
  = (fst (determineState now s), reset (snd (determineState now s))).
Proof.
  unfold determineState.
  change (m_time_last_event (reset s)) with (m_time_last_event s).
  destruct (60 * INPUT_COUNTER_RESET_TIME <? now - m_time_last_event s);
    reflexivity.
Qed.

(** X8.  The classification reads nothing but the classifier memory: two
    objects that agree on the buffer flag, the two time stamps and the two
    counters are in the same state at every instant, whatever their fill
    extrema, peaks and event counts are; in particular [reset] does not
    change the state of an object. *)
Theorem determineState_memory_only (now : Z) (s s' : InputStat) :
  same_classifier_memory s s' ->
  fst (determineState now s') = fst (determineState now s) /\
  fst (determineState now (reset s)) = fst (determineState now s).
Proof.
  intros (Hg & Hsil & Hev & Hne & Hbe & _). split.
  - unfold determineState. rewrite Hev.
    destruct (60 * INPUT_COUNTER_RESET_TIME <? now - m_time_last_event s);
      cbn [fst];
      change (m_buffer_empty (set_glitch_counter ?x 0))
        with (m_buffer_empty x);
      cbn [set_glitch_counter m_buffer_empty m_time_last_buffer_nonempty
             m_glitch_counter m_silence_counter];
      rewrite ?Hg, ?Hsil, ?Hne, ?Hbe; reflexivity.
  - rewrite determineState_reset. reflexivity.
Qed.

Lemma state_visit_idempotent (now : Z) (s : InputStat) :
  state_visit now (state_visit now s) = state_visit now s.
Proof.
  unfold state_visit. rewrite determineState_reset. cbn [snd].
  rewrite determineState_twice. reflexivity.
Qed.

Lemma state_visit_class (now : Z) (s : InputStat) :
  fst (determineState now (state_visit now s)) = fst (determineState now s).
Proof.
  unfold state_visit. rewrite determineState_reset. cbn [fst].
  rewrite determineState_twice. reflexivity.
Qed.

Lemma encodeStateJSON_eq (now : Z) (s : InputStat) :
  encodeStateJSON now s
  = (state_json (state_label (fst (determineState now s))),
     snd (determineState now s)).
Proof.
  unfold encodeStateJSON.
  destruct (determineState now s) as [[] s']; reflexivity.
Qed.

Lemma classify_same_states (now : Z) (h h' : heap)
    (entries : list (string * ptr)) :
  same_states now h h' ->
  classify now (samples_of h' entries) = classify now (samples_of h entries).
Proof.
  intros Hsame. induction entries as [| [id p] rest IH]; [reflexivity |].
  cbn [samples_of]. specialize (Hsame p).
  destruct (PositiveMap.find p h') as [s' |],
           (PositiveMap.find p h) as [s |];
    cbn [option_map] in Hsame; try discriminate; [| exact IH].
  unfold classify in *. cbn [map fst snd]. rewrite IH. congruence.
Qed.

Lemma state_loop_spec (now : Z) (entries : list (string * ptr)) :
  forall (i : Z) (ss : string) (h : heap),
    0 <= i ->
    (forall id p, In (id, p) entries -> PositiveMap.In p h) ->
    exists h',
      state_loop now entries i ss h
      = Some (ss ++ state_items (negb (0 <? i))
                      (classify now (samples_of h entries)), h') /\
      (forall p,
          PositiveMap.find p h'
          = if existsb (Pos.eqb p) (map snd entries)
            then option_map (state_visit now) (PositiveMap.find p h)
            else PositiveMap.find p h).
Proof.
  induction entries as [| [id p] rest IH]; intros i ss h Hi Hlive.
  - exists h. cbn. rewrite append_nil_r. split; reflexivity.
  - destruct (Hlive id p (or_introl eq_refl)) as (s & Hs).
    apply PositiveMap.find_1 in Hs.
    cbn [state_loop samples_of]. rewrite Hs, encodeStateJSON_eq. cbn zeta.
    fold (state_visit now s).
    set (ss1 := ((if 0 <? i then ss ++ " ," ++ nl else ss)
                   ++ " " ++ dq ++ id ++ dq ++ " : ")
                  ++ state_json (state_label (fst (determineState now s)))).
    set (h1 := PositiveMap.add p (state_visit now s) h).
    destruct (IH (i + 1) ss1 h1) as (h' & Hloop & Hheap); [lia | |].
    { intros id' q Hin. apply PMapF.add_in_iff. right.
      apply (Hlive id' q). now right. }
    exists h'. split.
    + rewrite Hloop. f_equal. f_equal.
      assert (Hcls : classify now (samples_of h1 rest)
                     = classify now (samples_of h rest)).
      { apply classify_same_states. intros q. subst h1.
        destruct (Pos.eq_dec p q) as [<- | Hne].
        - rewrite PMapF.add_eq_o, Hs by reflexivity. cbn [option_map].
          now rewrite state_visit_class.
        - now rewrite PMapF.add_neq_o by exact Hne. }
      rewrite Hcls.
      replace (0 <? i + 1) with true by (symmetry; apply Z.ltb_lt; lia).
      subst ss1. unfold classify at 2. cbn [map fst snd negb state_items].
      fold (classify now (samples_of h rest)). unfold quoted.
      destruct (0 <? i); cbn [negb]; rewrite ?append_assoc; reflexivity.
    + intros q. rewrite Hheap. subst h1. cbn [map snd existsb].
      destruct (Pos.eqb_spec q p) as [-> | Hne]; cbn [orb].
      * rewrite PMapF.add_eq_o by reflexivity. rewrite Hs. cbn [option_map].
        rewrite state_visit_idempotent.
        destruct (existsb (Pos.eqb p) (map snd rest)); reflexivity.
      * rewrite PMapF.add_neq_o by congruence. reflexivity.
Qed.


(** X9.  With every registered object live, the state snapshot at time
    [now] succeeds and reports, in key order, the state [determineState]
    gives each registered object as the call finds it.  Afterwards every
    registered object has been classified and reset (so its transient
    counters are at their reset values and its silence counter and time
    stamps are as before), and no other object has changed. *)
Theorem getStateJSON_report (now : Z) (srv : ManagementServer) (h : heap) :
  registry_live srv h ->
  let samples := samples_of h (SMap.elements (m_inputStats srv)) in
  exists h',
    getStateJSON now srv h = Some (state_report (classify now samples), h') /\
    map fst (classify now samples) = snapshotIds srv /\
    (forall id p,
        SMap.MapsTo id p (m_inputStats srv) ->
        exists s,
          PositiveMap.find p h = Some s /\
          PositiveMap.find p h' = Some (reset (snd (determineState now s))) /\
          transient_reset (reset (snd (determineState now s))) /\
          m_silence_counter (reset (snd (determineState now s)))
            = m_silence_counter s /\
          m_time_last_event (reset (snd (determineState now s)))
            = m_time_last_event s /\
          m_time_last_buffer_nonempty (reset (snd (determineState now s)))
            = m_time_last_buffer_nonempty s) /\
    (forall p,
        (forall id, ~ SMap.MapsTo id p (m_inputStats srv)) ->
        PositiveMap.find p h' = PositiveMap.find p h).
Proof.
  intros Hlive samples. subst samples.
  set (entries := SMap.elements (m_inputStats srv)).
  assert (Hlive0 : forall id p, In (id, p) entries -> PositiveMap.In p h).
  { intros id p Hin. apply (Hlive id p), MapsTo_elements, Hin. }
  destruct (state_loop_spec now entries 0 ("{" ++ nl) h)
    as (h' & Hloop & Hheap); [lia | exact Hlive0 |].
  exists h'. split; [| split; [| split]].
  - unfold getStateJSON. cbn zeta. fold entries. rewrite Hloop.
    unfold state_report. cbn [Z.ltb negb]. rewrite ?append_assoc.
    reflexivity.
  - unfold classify. rewrite map_map. cbn [fst].
    apply (samples_of_ids h entries Hlive0).
  - intros id p Hmaps. apply MapsTo_elements in Hmaps. fold entries in Hmaps.
    destruct (Hlive0 id p Hmaps) as (s & Hs). apply PositiveMap.find_1 in Hs.
    exists s. split; [exact Hs |]. split.
    + rewrite Hheap, (existsb_registered entries id p Hmaps), Hs.
      reflexivity.
    + split; [apply reset_transient |].
      pose proof (set_glitch_counter_same s) as Hsame.
      unfold determineState.
      destruct (60 * INPUT_COUNTER_RESET_TIME <? now - m_time_last_event s);
        repeat split.
  - intros p Hout. rewrite Hheap.
    match goal with
    | |- context [existsb ?f ?l] => destruct (existsb f l) eqn:He
    end; [| reflexivity].
    apply existsb_pointer in He as (id & Hin).
    exfalso. apply (Hout id), MapsTo_elements, Hin.
Qed.

(** X10.  Reading the values does not disturb the classification: the
    state snapshot taken right after a value snapshot is the very report
    the state snapshot alone would have given at that instant, and both
    ways every object ends up the same. *)
Theorem values_then_state (now : Z) (srv : ManagementServer) (h h1 : heap)
    (json : string) :
  registry_live srv h ->
  getValuesJSON srv h = Some (json, h1) ->
  exists report h2 h2',
    getStateJSON now srv h = Some (report, h2) /\
    getStateJSON now srv h1 = Some (report, h2') /\
    (forall p, PositiveMap.find p h2' = PositiveMap.find p h2).
Proof.
  intros Hlive Hvalues.
  set (entries := SMap.elements (m_inputStats srv)).
  assert (Hlive0 : forall id p, In (id, p) entries -> PositiveMap.In p h).
  { intros id p Hin. apply (Hlive id p), MapsTo_elements, Hin. }
  (* the store the value snapshot leaves *)
  destruct (values_loop_spec entries 0 ("{ " ++ quoted "values" ++ " : {" ++ nl)
              h) as (samples & h1' & Hloop & _ & _ & Hheap1);
    [lia | exact Hlive0 |].
  unfold getValuesJSON in Hvalues. cbn zeta in Hvalues. fold entries in Hvalues.
  rewrite Hloop in Hvalues. injection Hvalues as _ <-.
  assert (Hlive1 : forall id p, In (id, p) entries -> PositiveMap.In p h1').
  { intros id p Hin. destruct (Hlive0 id p Hin) as (s & Hs).
    apply PositiveMap.find_1 in Hs. exists (reset s).
    apply PositiveMap.find_2.
    rewrite Hheap1, (existsb_registered entries id p Hin), Hs. reflexivity. }
  destruct (state_loop_spec now entries 0 ("{" ++ nl) h)
    as (h2 & Hstate & Hheap2); [lia | exact Hlive0 |].
  destruct (state_loop_spec now entries 0 ("{" ++ nl) h1')
    as (h2' & Hstate' & Hheap2'); [lia | exact Hlive1 |].
  assert (Hcls : classify now (samples_of h1' entries)
                 = classify now (samples_of h entries)).
  { apply classify_same_states. intros p. rewrite Hheap1.
    match goal with
    | |- context [existsb ?f ?l] => destruct (existsb f l)
    end; [| reflexivity].
    destruct (PositiveMap.find p h) as [s |]; [| reflexivity].
    cbn [option_map]. now rewrite determineState_reset. }
  rewrite Hcls in Hstate'.
  eexists; exists h2, h2'. unfold getStateJSON. cbn zeta. fold entries.
  rewrite Hstate, Hstate'. split; [reflexivity |]. split; [reflexivity |].
  intros p. rewrite Hheap2', Hheap2, Hheap1.
  match goal with
  | |- context [existsb ?f ?l] => destruct (existsb f l)
  end; [| reflexivity].
  destruct (PositiveMap.find p h) as [s |]; [| reflexivity].
  cbn [option_map]. f_equal. unfold state_visit.
  rewrite determineState_reset. reflexivity.
Qed.


(** * Further properties of the handshake and of the handler *)

(** X11.  A client-supplied tree is handed to the engine at most once:
    [retrieve_new_ptree] answers with the value of [m_retrieve_pending],
    copies the bridge's tree to the caller only then, notifies once only
    then, and leaves the tree and [m_pending] alone; a second poll right
    after it answers false, keeps the caller's tree and changes nothing. *)
Theorem retrieve_new_ptree_once (srv : ManagementServer) (pt : ptree) :
  exists pt1 srv1 evs1,
    retrieve_new_ptree srv pt = (m_retrieve_pending srv, pt1, srv1, evs1) /\
    pt1 = (if m_retrieve_pending srv then m_pt srv else pt) /\
    notifications evs1 = (if m_retrieve_pending srv then 1%nat else 0%nat) /\
    m_pt srv1 = m_pt srv /\
    m_pending srv1 = m_pending srv /\
    retrieve_new_ptree srv1 pt1 = (false, pt1, srv1, []).
Proof.
  unfold retrieve_new_ptree.
  destruct (m_retrieve_pending srv) eqn:Hflag.
  - eexists; eexists; eexists. split; [reflexivity |].
    cbn [m_retrieve_pending set_retrieve_pending]. repeat split.
  - eexists; eexists; eexists. split; [reflexivity |].
    rewrite Hflag. repeat split.
Qed.

Lemma written_app (evs evs' : list event) :
  written (evs ++ evs') = (written evs ++ written evs')%list.
Proof.
  induction evs as [| [lvl msg | data |] evs IH]; cbn [written app];
    [reflexivity | exact IH | now rewrite IH | exact IH].
Qed.

Lemma engine_step_frame (srv : ManagementServer) (op : engine_op) :
  same_outside_bridge srv (fst (engine_step srv op)) /\
  (m_retrieve_pending srv = false ->
   m_retrieve_pending (fst (engine_step srv op)) = false) /\
  written (snd (engine_step srv op)) = [].
Proof.
  destruct op as [pt | pt]; cbn [engine_step].
  - unfold update_ptree. destruct (m_running srv); repeat split; auto.
  - unfold retrieve_new_ptree.
    destruct (m_retrieve_pending srv) eqn:Hflag; repeat split; auto.
Qed.

Lemma same_outside_bridge_trans (a b c : ManagementServer) :
  same_outside_bridge a b -> same_outside_bridge b c ->
  same_outside_bridge a c.
Proof.
  intros (H1 & H2 & H3) (H4 & H5 & H6). repeat split; congruence.
Qed.

Lemma engine_run_frame (ops : list engine_op) :
  forall srv,
    same_outside_bridge srv (fst (engine_run srv ops)) /\
    (m_retrieve_pending srv = false ->
     m_retrieve_pending (fst (engine_run srv ops)) = false) /\
    written (snd (engine_run srv ops)) = [].
Proof.
  induction ops as [| op rest IH]; intros srv; cbn [engine_run].
  - repeat split; auto.
  - destruct (engine_step_frame srv op) as (Hf & Hflag & Hw).
    destruct (engine_step srv op) as [srv1 evs1]. cbn [fst snd] in *.
    destruct (IH srv1) as (Hf' & Hflag' & Hw').
    destruct (engine_run srv1 rest) as [srv2 evs2]. cbn [fst snd] in *.
    split; [exact (same_outside_bridge_trans _ _ _ Hf Hf') |].
    split; [auto |]. rewrite written_app, Hw, Hw'. reflexivity.
Qed.

Lemma cond_wait_frame (wake : list (list engine_op)) :
  forall srv evs b srv' evs',
    cond_wait wake srv evs = (b, srv', evs') ->
    same_outside_bridge srv srv' /\
    (m_retrieve_pending srv = false -> m_retrieve_pending srv' = false) /\
    written evs' = written evs.
Proof.
  induction wake as [| ops rest IH]; intros srv evs b srv' evs';
    cbn [cond_wait];
    destruct (m_pending srv && negb (m_retrieve_pending srv));
    try (intros [= <- <- <-]; repeat split; auto).
  destruct (engine_run_frame ops srv) as (Hf & Hflag & Hw).
  destruct (engine_run srv ops) as [srv1 evs1]. cbn [fst snd] in *.
  intros Hwait. destruct (IH _ _ _ _ _ Hwait) as (Hf' & Hflag' & Hw').
  split; [exact (same_outside_bridge_trans _ _ _ Hf Hf') |].
  split; [auto |]. rewrite Hw', written_app, Hw. apply app_nil_r.
Qed.

(** X12.  A command line that is none of the five commands is answered
    with the greeting and the line [Invalid command]; the server and every
    object stay as they were. *)
Theorem handle_invalid_command (conn : connection) (srv : ManagementServer)
    (h : heap) :
  boost_error conn = false ->
  unknown_command (in_message conn) ->
  handle_accept conn srv h
  = Returned srv h
      [EvLog info "RC: Accepted"; EvWrite welcome_msg;
       EvWrite ("Invalid command" ++ nl)].
Proof.
  intros Herr (H1 & H2 & H3 & H4 & H5). unfold handle_accept.
  rewrite Herr.
  apply String.eqb_neq in H1, H2, H3, H4, H5. cbn zeta.
  rewrite H1, H2, H3, H4, H5. reflexivity.
Qed.

Lemma same_outside_bridge_refl (srv : ManagementServer) :
  same_outside_bridge srv srv.
Proof. repeat split. Qed.

(** X14.  Serving a connection never touches the registry or the run
    flags: whatever the connection carries and however the handler ends
    (returned, or left waiting in [getptree]), [m_inputStats],
    [m_running] and [m_fault] are as before; and unless the command is
    [values] or [state], no [InputStat] is written either. *)
Theorem handle_accept_frame (conn : connection) (srv srv' : ManagementServer)
    (h h' : heap) (evs : list event) :
  served (handle_accept conn srv h) = Some (srv', h', evs) ->
  same_outside_bridge srv srv' /\
  (in_message conn <> "values" -> in_message conn <> "state" -> h' = h).
Proof.
  unfold handle_accept.
  destruct (boost_error conn).
  { intros [= <- <- <-]. split; [apply same_outside_bridge_refl | auto]. }
  cbn zeta.
  destruct (in_message conn =? "config")%string.
  { intros [= <- <- <-]. split; [apply same_outside_bridge_refl | auto]. }
  destruct (String.eqb_spec (in_message conn) "values") as [Hv | Hv].
  { destruct (getValuesJSON srv h) as [[json h1] |]; [| discriminate].
    intros [= <- <- <-].
    split; [apply same_outside_bridge_refl | contradiction]. }
  destruct (String.eqb_spec (in_message conn) "state") as [Hs | Hs].
  { destruct (getStateJSON (conn_now conn) srv h) as [[json h1] |];
      [| discriminate].
    intros [= <- <- <-].
    split; [apply same_outside_bridge_refl | contradiction]. }
  destruct (in_message conn =? "setptree")%string.
  { destruct (0 <? json_length conn)%N;
      [destruct (json_parsed conn) | destruct (json_length conn =? 0)%N];
      intros [= <- <- <-]; split; auto; repeat split. }
  destruct (in_message conn =? "getptree")%string.
  { destruct (cond_wait (wakeups conn) (set_pending srv true) _)
      as [[b srv1] evs1] eqn:Hwait.
    destruct (cond_wait_frame _ _ _ _ _ _ Hwait) as (Hf & _ & _).
    destruct b; [destruct (write_json (m_pt srv1)) |];
      intros [= <- <- <-]; split; auto; exact Hf. }
  intros [= <- <- <-]. split; [apply same_outside_bridge_refl | auto].
Qed.

(** X15.  The wire protocol of one connection: after an accept error
    nothing is written; otherwise the greeting is written first and at
    most one response follows it, and a handler left waiting in
    [getptree] has written the greeting alone. *)
Theorem handle_accept_writes (conn : connection) (srv : ManagementServer)
    (h : heap) :
  match handle_accept conn srv h with
  | Returned _ _ evs =>
      if boost_error conn then written evs = []
      else exists body,
          written evs = welcome_msg :: body /\ (List.length body <= 1)%nat
  | Waiting _ _ evs => written evs = [welcome_msg]
  | Undefined => True
  end.
Proof.
  unfold handle_accept.
  destruct (boost_error conn); [reflexivity |]. cbn zeta.
  destruct (in_message conn =? "config")%string.
  { eexists. split; [reflexivity | cbn; lia]. }
  destruct (in_message conn =? "values")%string.
  { destruct (getValuesJSON srv h) as [[json h1] |]; [| exact I].
    eexists. split; [reflexivity | cbn; lia]. }
  destruct (in_message conn =? "state")%string.
  { destruct (getStateJSON (conn_now conn) srv h) as [[json h1] |];
      [| exact I].
    eexists. split; [reflexivity | cbn; lia]. }
  destruct (in_message conn =? "setptree")%string.
  { destruct (0 <? json_length conn)%N;
      [destruct (json_parsed conn) | destruct (json_length conn =? 0)%N];
      eexists; (split; [reflexivity | cbn; lia]). }
  destruct (in_message conn =? "getptree")%string.
  { destruct (cond_wait (wakeups conn) (set_pending srv true) _)
      as [[b srv1] evs1] eqn:Hwait.
    destruct (cond_wait_frame _ _ _ _ _ _ Hwait) as (_ & _ & Hw).
    cbn [written] in Hw.
    destruct b; [| exact Hw].
    destruct (write_json (m_pt srv1)) as [text | what];
      rewrite written_app, Hw; eexists; (split; [reflexivity | cbn; lia]). }
  eexists. split; [reflexivity | cbn; lia].
Qed.


Lemma handle_accept_flag (conn : connection) (srv srv' : ManagementServer)
    (h h' : heap) (evs : list event) :
  served (handle_accept conn srv h) = Some (srv', h', evs) ->
  m_retrieve_pending srv = false ->
  m_retrieve_pending srv' = false.
Proof.
  unfold handle_accept.
  destruct (boost_error conn); [intros [= <- <- <-]; auto |]. cbn zeta.
  destruct (in_message conn =? "config")%string;
    [intros [= <- <- <-]; auto |].
  destruct (in_message conn =? "values")%string.
  { destruct (getValuesJSON srv h) as [[json h1] |]; [| discriminate].
    intros [= <- <- <-]; auto. }
  destruct (in_message conn =? "state")%string.
  { destruct (getStateJSON (conn_now conn) srv h) as [[json h1] |];
      [| discriminate].
    intros [= <- <- <-]; auto. }
  destruct (in_message conn =? "setptree")%string.
  { destruct (0 <? json_length conn)%N;
      [destruct (json_parsed conn) | destruct (json_length conn =? 0)%N];
      intros [= <- <- <-]; auto. }
  destruct (in_message conn =? "getptree")%string;
    [| intros [= <- <- <-]; auto].
  destruct (cond_wait (wakeups conn) (set_pending srv true) _)
    as [[b srv1] evs1] eqn:Hwait.
  destruct (cond_wait_frame _ _ _ _ _ _ Hwait) as (_ & Hflag & _).
  destruct b; [destruct (write_json (m_pt srv1)) |];
    intros [= <- <- <-]; exact Hflag.
Qed.

Lemma run_call_flag (h : heap) (srv srv' : ManagementServer)
    (c : registry_call) :
  run_call h srv c = Some srv' ->
  m_retrieve_pending srv' = m_retrieve_pending srv.
Proof.
  destruct c as [inp | id]; cbn [run_call].
  - unfold registerInput.
    destruct (PositiveMap.find inp h) as [s |]; [| discriminate]. cbn zeta.
    destruct (count (get_name s) (m_inputStats srv) =? 1);
      intros [= <-]; reflexivity.
  - unfold unregisterInput.
    destruct (count id (m_inputStats srv) =? 1); intros [= <-]; reflexivity.
Qed.

Lemma run_action_flag (st st' : ManagementServer * heap) (a : action) :
  run_action st a = Some st' ->
  m_retrieve_pending (fst st) = false ->
  m_retrieve_pending (fst st') = false.
Proof.
  destruct st as [srv h]. destruct a as [conn | op | c]; cbn [run_action fst].
  - destruct (handle_accept conn srv h) as [srv1 h1 evs | srv1 h1 evs |] eqn:Hh;
      intros [= <-]; cbn [fst];
      apply (handle_accept_flag conn srv srv1 h h1 evs); rewrite Hh;
      reflexivity.
  - intros [= <-]. cbn [fst]. apply engine_step_frame.
  - destruct (run_call h srv c) as [srv1 |] eqn:Hc; intros [= <-].
    cbn [fst]. rewrite (run_call_flag h srv srv1 c Hc). auto.
Qed.

(** X16.  Nothing in this file ever raises [m_retrieve_pending]: if the
    flag is false, it is false after any sequence of served connections
    (whatever their commands and documents), engine calls and registry
    calls, and a poll by the engine then answers false and leaves the
    caller's tree alone. *)
Theorem retrieve_flag_stays_false (acts : list action)
    (st st' : ManagementServer * heap) :
  m_retrieve_pending (fst st) = false ->
  run_actions st acts = Some st' ->
  m_retrieve_pending (fst st') = false /\
  (forall pt, retrieve_new_ptree (fst st') pt = (false, pt, fst st', [])).
Proof.
  intros Hflag Hrun.
  assert (H : m_retrieve_pending (fst st') = false).
  { revert st Hflag Hrun. induction acts as [| a rest IH]; intros st Hflag.
    - intros [= <-]. exact Hflag.
    - cbn [run_actions].
      destruct (run_action st a) as [st1 |] eqn:Ha; [| discriminate].
      apply IH. exact (run_action_flag st st1 a Ha Hflag). }
  split; [exact H |]. intros pt. unfold retrieve_new_ptree. now rewrite H.
Qed.

Lemma engine_run_stopped (ops : list engine_op) (srv : ManagementServer) :
  m_running srv = false ->
  m_retrieve_pending srv = false ->
  engine_run srv ops = (srv, []).
Proof.
  intros Hrun Hflag. induction ops as [| op rest IH]; [reflexivity |].
  cbn [engine_run].
  assert (Hstep : engine_step srv op = (srv, [])).
  { destruct op; cbn [engine_step]; unfold update_ptree, retrieve_new_ptree;
      rewrite ?Hrun, ?Hflag; reflexivity. }
  rewrite Hstep, IH. reflexivity.
Qed.

(** X17.  While [m_running] is false (and no client tree is pending) the
    engine cannot release a [getptree]: whatever it publishes or polls,
    and however often the serving thread is woken, the handler stays in
    its wait with [m_pending] set and only the greeting written. *)
Theorem getptree_stopped_server_waits (conn : connection)
    (srv : ManagementServer) (h : heap) :
  getptree_request conn ->
  m_running srv = false ->
  m_retrieve_pending srv = false ->
  handle_accept conn srv h
  = Waiting (set_pending srv true) h
      [EvLog info "RC: Accepted"; EvWrite welcome_msg].
Proof.
  intros (Herr & Hmsg) Hrun Hflag. serve Herr Hmsg.
  assert (Hw : forall wake evs,
             cond_wait wake (set_pending srv true) evs
             = (false, set_pending srv true, evs)).
  { induction wake as [| ops rest IH]; intros evs; cbn [cond_wait];
      change (m_retrieve_pending (set_pending srv true))
        with (m_retrieve_pending srv);
      change (m_pending (set_pending srv true)) with true;
      rewrite Hflag; cbn [andb negb]; [reflexivity |].
    rewrite engine_run_stopped by assumption.
    rewrite app_nil_r. apply IH. }
  rewrite Hw. reflexivity.
Qed.

Lemma cond_wait_published (n : nat) (pt : ptree)
    (rest : list (list engine_op)) (srv : ManagementServer)
    (evs : list event) :
  m_pending srv = true ->
  m_retrieve_pending srv = false ->
  m_running srv = true ->
  cond_wait (repeat [] n ++ [EngUpdate pt] :: rest) srv evs
  = (true, set_pending (set_pt srv pt) false, (evs ++ [EvNotifyOne])%list).
Proof.
  intros Hp Hflag Hrun. revert evs.
  induction n as [| n IH]; intros evs; cbn [repeat app cond_wait];
    rewrite Hp, Hflag; cbn [andb negb engine_run engine_step].
  - unfold update_ptree. rewrite Hrun.
    destruct rest; cbn [cond_wait m_pending set_pending andb]; reflexivity.
  - rewrite app_nil_r. apply IH.
Qed.

(** X18.  A [getptree] on a running server is released by the first
    publication of the engine, after any number of idle wake-ups: the
    handler returns with the engine's tree in the bridge and [m_pending]
    cleared, one notification has been made, and the client receives the
    greeting and then the serialisation of that tree, or the greeting
    alone (with the exception logged) when [write_json] throws. *)
Theorem getptree_released_by_publish (conn : connection)
    (srv : ManagementServer) (h : heap) (n : nat) (pt : ptree)
    (rest : list (list engine_op)) :
  getptree_request conn ->
  m_retrieve_pending srv = false ->
  m_running srv = true ->
  wakeups conn = (repeat [] n ++ [EngUpdate pt] :: rest)%list ->
  handle_accept conn srv h
  = Returned (set_pending (set_pt srv pt) false) h
      [EvLog info "RC: Accepted"; EvWrite welcome_msg; EvNotifyOne;
       match write_json pt with
       | Ok text => EvWrite text
       | Throw what => caught what
       end].
Proof.
  intros (Herr & Hmsg) Hflag Hrun Hwake. serve Herr Hmsg. rewrite Hwake.
  rewrite cond_wait_published by (destruct srv; cbn in *; congruence).
  cbn [m_pt set_pending set_pt].
  destruct (write_json pt); reflexivity.
Qed.


(** X19.  The id snapshot is canonical: two servers whose registries hold
    the same set of ids, however they came to hold them and whatever the
    ids point to, produce the same list of ids and the same config
    report. *)
Theorem getStatConfigJSON_canonical (srv1 srv2 : ManagementServer) :
  (forall id, SMap.In id (m_inputStats srv1) <->
              SMap.In id (m_inputStats srv2)) ->
  snapshotIds srv1 = snapshotIds srv2 /\
  getStatConfigJSON srv1 = getStatConfigJSON srv2.
Proof.
  intros Hsame.
  assert (Hids : snapshotIds srv1 = snapshotIds srv2).
  { apply strictly_sorted_unique; try apply snapshotIds_sorted.
    intros id. rewrite !In_snapshotIds. apply Hsame. }
  split; [exact Hids |].
  rewrite !getStatConfigJSON_report, Hids. reflexivity.
Qed.


(** * The life cycle of an [InputStat] *)

(** X20.  Destroying an object keeps the registry well named: when every
    key is the name of the live object behind it, it is still so after the
    destructor of any live object has run, so the registry never holds a
    pointer to a destroyed object; the destroyed object's name is no key
    any more and the other keys keep their entries. *)
Theorem destroy_InputStat_named (srv : ManagementServer) (h : heap)
    (this : ptr) (s : InputStat) :
  registry_named srv h ->
  PositiveMap.find this h = Some s ->
  exists srv' h',
    destroy_InputStat srv h this = Some (srv', h') /\
    registry_named srv' h' /\
    registry_live srv' h' /\
    ~ In (m_name s) (snapshotIds srv') /\
    (forall id, id <> m_name s ->
                SMap.find id (m_inputStats srv')
                = SMap.find id (m_inputStats srv)).
Proof.
  intros Hnamed Hs. unfold destroy_InputStat. rewrite Hs.
  eexists; eexists. split; [reflexivity |].
  assert (Hn : registry_named (unregisterInput srv (m_name s))
                 (PositiveMap.remove this h)).
  { intros id p Hmaps.
    assert (Hin : SMap.In id (m_inputStats (unregisterInput srv (m_name s))))
      by (now exists p).
    apply unregisterInput_ids in Hin as [Hne _].
    destruct (unregisterInput_named srv h (m_name s) Hnamed id p Hmaps)
      as (s' & Hs' & Hname).
    exists s'. split; [| exact Hname].
    rewrite PMapF.remove_neq_o; [exact Hs' |].
    intros <-. rewrite Hs in Hs'. injection Hs' as <-.
    apply Hne. exact Hname. }
  split; [exact Hn |]. split; [| split].
  - intros id p Hmaps. destruct (Hn id p Hmaps) as (s' & Hs' & _).
    exists s'. apply PositiveMap.find_2, Hs'.
  - rewrite In_snapshotIds, unregisterInput_ids. intros [Hne _].
    now apply Hne.
  - intros id Hne. unfold unregisterInput.
    destruct (count (m_name s) (m_inputStats srv) =? 1); [| reflexivity].
    cbn [m_inputStats set_inputStats]. apply SMapF.remove_neq_o. congruence.
Qed.

(** X21.  The destructor unregisters by name, not by object: when an
    object was refused by [registerAtServer] because another object holds
    its name, destroying the refused object removes the entry of that
    other object, which is still alive but from then on absent from the id
    snapshot and unknown to [isInputRegistered]. *)
Theorem destroy_refused_duplicate (srv : ManagementServer) (h : heap)
    (this first : ptr) (s s1 : InputStat) :
  PositiveMap.find this h = Some s ->
  PositiveMap.find first h = Some s1 ->
  first <> this ->
  SMap.find (get_name s) (m_inputStats srv) = Some first ->
  exists evs srv' h',
    registerAtServer srv h this = Some (srv, evs) /\
    destroy_InputStat srv h this = Some (srv', h') /\
    PositiveMap.find first h' = Some s1 /\
    SMap.find (get_name s) (m_inputStats srv') = None /\
    ~ In (get_name s) (snapshotIds srv') /\
    fst (isInputRegistered srv' (get_name s)) = false.
Proof.
  intros Hs Hs1 Hne Hfirst.
  assert (Hin : SMap.In (get_name s) (m_inputStats srv)).
  { exists first. apply SMapF.find_mapsto_iff, Hfirst. }
  assert (Hout : ~ SMap.In (get_name s)
                   (m_inputStats (unregisterInput srv (get_name s)))).
  { rewrite unregisterInput_ids. intros [Hnn _]. now apply Hnn. }
  eexists; exists (unregisterInput srv (get_name s)),
                  (PositiveMap.remove this h).
  split; [| split; [| split; [| split; [| split]]]].
  - unfold registerAtServer, registerInput. rewrite Hs. cbn zeta.
    apply count_1 in Hin. rewrite Hin. reflexivity.
  - unfold destroy_InputStat. rewrite Hs. reflexivity.
  - rewrite PMapF.remove_neq_o by congruence. exact Hs1.
  - apply SMapF.not_find_in_iff, Hout.
  - rewrite In_snapshotIds. exact Hout.
  - rewrite (isInputRegistered_false _ _ Hout). reflexivity.
Qed.


(** * The conversion to dB *)

Lemma half_step_le_iff (j a b : Z) :
  half_step_le j a b = true <-> 10 ^ (2 * j - 1) * a ^ 40 <= b ^ 40.
Proof. unfold half_step_le. apply Z.leb_le. Qed.

Lemma half_step_le_down (j k a b : Z) :
  1 <= k -> k <= j ->
  half_step_le j a b = true -> half_step_le k a b = true.
Proof.
  rewrite !half_step_le_iff. intros Hk Hkj H.
  apply Z.le_trans with (2 := H).
  apply Z.mul_le_mono_nonneg_r.
  - apply Z.pow_even_nonneg. now exists 20.
  - apply Z.pow_le_mono_r; lia.
Qed.

Lemma half_step_le_bound (k a b : Z) :
  0 < a -> 0 < b -> 1 <= k ->
  half_step_le k a b = true -> k <= 20 * Z.log2_up b.
Proof.
  intros Ha Hb Hk H. apply half_step_le_iff in H.
  assert (Ha40 : 1 <= a ^ 40).
  { change 1 with (1 ^ 40). apply Z.pow_le_mono_l. lia. }
  assert (Hb2 : b <= 2 ^ Z.log2_up b).
  { destruct (Z.eq_dec b 1) as [-> | Hne]; [cbn; lia |].
    apply Z.log2_up_spec. lia. }
  assert (HL : 0 <= Z.log2_up b) by apply Z.log2_up_nonneg.
  assert (H10 : 0 < 10 ^ (2 * k - 1)) by (apply Z.pow_pos_nonneg; lia).
  assert (H1 : 2 ^ (2 * k - 1) <= 10 ^ (2 * k - 1)).
  { apply Z.pow_le_mono_l. lia. }
  assert (H2 : b ^ 40 <= 2 ^ (40 * Z.log2_up b)).
  { rewrite (Z.mul_comm 40), Z.pow_mul_r by lia.
    apply Z.pow_le_mono_l. lia. }
  assert (H3 : 2 ^ (2 * k - 1) <= 2 ^ (40 * Z.log2_up b)) by nia.
  apply Z.pow_le_mono_r_iff in H3; lia.
Qed.

Lemma steps_from_spec (fuel : nat) (a b : Z) :
  forall j,
    0 <= steps_from fuel j a b <= Z.of_nat fuel /\
    (forall k, j <= k < j + steps_from fuel j a b ->
               half_step_le k a b = true) /\
    (steps_from fuel j a b < Z.of_nat fuel ->
     half_step_le (j + steps_from fuel j a b) a b = false).
Proof.
  induction fuel as [| fuel IH]; intros j; cbn [steps_from].
  - split; [cbn; lia |]. split; [intros k Hk; lia | cbn; lia].
  - destruct (half_step_le j a b) eqn:Hj.
    + destruct (IH (j + 1)) as (Hr & Hall & Hstop).
      split; [lia |]. split.
      * intros k Hk. destruct (Z.eq_dec k j) as [-> | Hne];
          [exact Hj | apply Hall; lia].
      * intros Hlt.
        replace (j + (1 + steps_from fuel (j + 1) a b))
          with (j + 1 + steps_from fuel (j + 1) a b) by lia.
        apply Hstop. lia.
    + split; [lia |]. split; [intros k Hk; lia |].
      intros _. now rewrite Z.add_0_r.
Qed.

Lemma steps_spec (a b : Z) :
  0 < a -> 0 < b ->
  0 <= steps a b /\
  (forall k, 1 <= k <= steps a b -> half_step_le k a b = true) /\
  half_step_le (steps a b + 1) a b = false.
Proof.
  intros Ha Hb. unfold steps.
  set (fuel := Z.to_nat (20 * Z.log2_up b + 1)).
  assert (HL : 0 <= Z.log2_up b) by apply Z.log2_up_nonneg.
  assert (Hfuel : Z.of_nat fuel = 20 * Z.log2_up b + 1)
    by (subst fuel; lia).
  destruct (steps_from_spec fuel a b 1) as (Hr & Hall & Hstop).
  split; [lia |]. split; [intros k Hk; apply Hall; lia |].
  rewrite Z.add_comm. apply Hstop.
  destruct (Z.eq_dec (steps_from fuel 1 a b) (Z.of_nat fuel)) as [Heq | Hne];
    [| lia].
  exfalso.
  assert (Hlast : half_step_le (Z.of_nat fuel) a b = true)
    by (apply Hall; lia).
  apply half_step_le_bound in Hlast; lia.
Qed.

Lemma steps_mono_r (a b1 b2 : Z) :
  0 < a -> 0 < b1 -> b1 <= b2 -> steps a b1 <= steps a b2.
Proof.
  intros Ha Hb1 Hb.
  destruct (steps_spec a b1) as (H1 & Hall1 & _); [lia | lia |].
  destruct (steps_spec a b2) as (H2 & _ & Hstop2); [lia | lia |].
  destruct (Z_le_gt_dec (steps a b1) (steps a b2)) as [Hle | Hgt];
    [exact Hle | exfalso].
  assert (H : half_step_le (steps a b2 + 1) a b1 = true)
    by (apply Hall1; lia).
  apply half_step_le_iff in H.
  assert (H' : half_step_le (steps a b2 + 1) a b2 = true).
  { apply half_step_le_iff. apply Z.le_trans with (1 := H).
    apply Z.pow_le_mono_l. lia. }
  congruence.
Qed.

Lemma steps_anti_l (a1 a2 b : Z) :
  0 < a1 -> a1 <= a2 -> 0 < b -> steps a2 b <= steps a1 b.
Proof.
  intros Ha1 Ha Hb.
  destruct (steps_spec a2 b) as (H2 & Hall2 & _); [lia | lia |].
  destruct (steps_spec a1 b) as (H1 & _ & Hstop1); [lia | lia |].
  destruct (Z_le_gt_dec (steps a2 b) (steps a1 b)) as [Hle | Hgt];
    [exact Hle | exfalso].
  assert (H : half_step_le (steps a1 b + 1) a2 b = true)
    by (apply Hall2; lia).
  apply half_step_le_iff in H.
  assert (H' : half_step_le (steps a1 b + 1) a1 b = true).
  { apply half_step_le_iff. apply Z.le_trans with (2 := H).
    apply Z.mul_le_mono_nonneg_l.
    - apply Z.pow_nonneg. lia.
    - apply Z.pow_le_mono_l. lia. }
  congruence.
Qed.

Lemma round_20log10_exact_mono (p1 p2 : Z) :
  0 < p1 -> p1 <= p2 ->
  round_20log10_exact p1 <= round_20log10_exact p2.
Proof.
  intros Hp1 Hp. unfold round_20log10_exact.
  destruct (Z.leb_spec int16_max p1) as [H1 | H1],
           (Z.leb_spec int16_max p2) as [H2 | H2].
  - apply steps_mono_r; [reflexivity | lia | exact Hp].
  - lia.
  - destruct (steps_spec p1 int16_max) as (Ha & _); [lia | reflexivity |].
    destruct (steps_spec int16_max p2) as (Hb & _); [reflexivity | lia |].
    lia.
  - assert (steps p2 int16_max <= steps p1 int16_max)
      by (apply steps_anti_l; [lia | exact Hp | reflexivity]).
    lia.
Qed.

(** The exact conversion is the rounded value. *)
Lemma round_20log10_exact_correct (p : Z) :
  0 < p -> is_round_20log10 p (round_20log10_exact p).
Proof.
  intros Hp. unfold is_round_20log10, round_20log10_exact.
  assert (HM0 : 0 < int16_max) by reflexivity.
  assert (HM40 : 0 < int16_max ^ 40) by (apply Z.pow_pos_nonneg; lia).
  assert (Hp40 : 0 < p ^ 40) by (apply Z.pow_pos_nonneg; lia).
  destruct (Z.leb_spec int16_max p) as [HM | HM].
  - destruct (steps_spec int16_max p) as (Hr & Hall & Hstop);
      [reflexivity | lia |].
    set (r := steps int16_max p) in *. split.
    + unfold ratio_ge. destruct (Z.leb_spec 0 (2 * r - 1)) as [Hn | Hn].
      * apply half_step_le_iff, Hall. lia.
      * replace (- (2 * r - 1)) with 1 by lia. change (10 ^ 1) with 10.
        assert (int16_max ^ 40 <= p ^ 40) by (apply Z.pow_le_mono_l; lia).
        lia.
    + unfold ratio_ge. destruct (Z.leb_spec 0 (2 * r + 1)) as [Hn | Hn];
        [| lia].
      intros H. replace (2 * r + 1) with (2 * (r + 1) - 1) in H by lia.
      apply half_step_le_iff in H. congruence.
  - destruct (steps_spec p int16_max) as (Hr & Hall & Hstop);
      [lia | reflexivity |].
    set (r := steps p int16_max) in *. split.
    + unfold ratio_le. destruct (Z.leb_spec 0 (2 * - r - 1)) as [Hn | Hn];
        [lia |].
      intros H. replace (- (2 * - r - 1)) with (2 * (r + 1) - 1) in H by lia.
      rewrite Z.mul_comm in H. apply half_step_le_iff in H. congruence.
    + unfold ratio_le. destruct (Z.leb_spec 0 (2 * - r + 1)) as [Hn | Hn].
      * replace (2 * - r + 1) with 1 by lia. change (10 ^ 1) with 10.
        assert (p ^ 40 <= int16_max ^ 40) by (apply Z.pow_le_mono_l; lia).
        lia.
      * replace (- (2 * - r + 1)) with (2 * r - 1) by lia.
        rewrite Z.mul_comm. apply half_step_le_iff, Hall. lia.
Qed.


Lemma ratio_ge_anti (n n' p : Z) :
  0 < p -> n' <= n -> ratio_ge n p -> ratio_ge n' p.
Proof.
  intros Hp Hn. unfold ratio_ge.
  assert (HM40 : 0 < int16_max ^ 40) by reflexivity.
  assert (Hp40 : 0 < p ^ 40) by (apply Z.pow_pos_nonneg; lia).
  destruct (Z.leb_spec 0 n) as [H0 | H0], (Z.leb_spec 0 n') as [H0' | H0'];
    intros H; try lia.
  - assert (10 ^ n' <= 10 ^ n) by (apply Z.pow_le_mono_r; lia). nia.
  - assert (1 <= 10 ^ n) by (apply (Z.pow_le_mono_r 10 0 n); lia).
    assert (1 <= 10 ^ (- n')) by (apply (Z.pow_le_mono_r 10 0 (- n')); lia).
    nia.
  - assert (10 ^ (- n) <= 10 ^ (- n')) by (apply Z.pow_le_mono_r; lia). nia.
Qed.

Lemma ratio_le_mono (n n' p : Z) :
  0 < p -> n <= n' -> ratio_le n p -> ratio_le n' p.
Proof.
  intros Hp Hn. unfold ratio_le.
  assert (HM40 : 0 < int16_max ^ 40) by reflexivity.
  assert (Hp40 : 0 < p ^ 40) by (apply Z.pow_pos_nonneg; lia).
  destruct (Z.leb_spec 0 n) as [H0 | H0], (Z.leb_spec 0 n') as [H0' | H0'];
    intros H; try lia.
  - assert (10 ^ n <= 10 ^ n') by (apply Z.pow_le_mono_r; lia). nia.
  - assert (1 <= 10 ^ n') by (apply (Z.pow_le_mono_r 10 0 n'); lia).
    assert (1 <= 10 ^ (- n)) by (apply (Z.pow_le_mono_r 10 0 (- n)); lia).
    nia.
  - assert (10 ^ (- n') <= 10 ^ (- n)) by (apply Z.pow_le_mono_r; lia). nia.
Qed.

(** At most one integer is the rounded value. *)
Lemma is_round_20log10_unique (p d d' : Z) :
  0 < p -> is_round_20log10 p d -> is_round_20log10 p d' -> d = d'.
Proof.
  intros Hp. unfold is_round_20log10.
  destruct (int16_max <=? p); intros [H1 H2] [H1' H2'].
  - destruct (Z.lt_total d d') as [Hlt | [Heq | Hgt]]; [| exact Heq |];
      exfalso.
    + apply H2. apply (ratio_ge_anti (2 * d' - 1)); [exact Hp | lia | exact H1'].
    + apply H2'. apply (ratio_ge_anti (2 * d - 1)); [exact Hp | lia | exact H1].
  - destruct (Z.lt_total d d') as [Hlt | [Heq | Hgt]]; [| exact Heq |];
      exfalso.
    + apply H1'. apply (ratio_le_mono (2 * d + 1)); [exact Hp | lia | exact H2].
    + apply H1. apply (ratio_le_mono (2 * d' + 1)); [exact Hp | lia | exact H2'].
Qed.

(** C7.  Where the conversion of the header agrees on positive peaks with
    the exact value of round(20*log10(p / int16_max)): [peak_dB] maps every
    peak [p > 0] to that rounded value, which is the only integer within
    one half of 20*log10(p / int16_max); it maps 0 to -90 and the maximum
    magnitude 32767 to 0; it is non-decreasing on positive peaks; and
    [encodeValuesJSON] shows [peak_dB] of the left peak and [peak_dB] of
    the right peak, each computed from its own channel alone. *)
Theorem peak_dB_encoding :
  (forall p, 0 < p -> round_20log10 p = round_20log10_exact p) ->
  (forall p, 0 < p ->
             is_round_20log10 p (peak_dB p) /\
             (forall d, is_round_20log10 p d -> d = peak_dB p)) /\
  peak_dB 0 = -90 /\
  peak_dB int16_max = 0 /\
  (forall p1 p2, 0 < p1 -> p1 < p2 -> peak_dB p1 <= peak_dB p2) /\
  (forall s,
      encodeValuesJSON s
      = inputstat_json (min_fill_buffer s) (max_fill_buffer s)
          (peak_dB (peak_left s)) (peak_dB (peak_right s))
          (num_underruns s) (num_overruns s)).
Proof.
  intros Hexact.
  assert (Hpos : forall p, 0 < p -> peak_dB p = round_20log10_exact p).
  { intros p Hp. unfold peak_dB.
    destruct (Z.eqb_spec p 0) as [-> | _]; [lia | apply Hexact, Hp]. }
  split; [| split; [| split; [| split]]].
  - intros p Hp. rewrite (Hpos p Hp). split.
    + apply round_20log10_exact_correct, Hp.
    + intros d Hd.
      apply (is_round_20log10_unique p d _ Hp Hd).
      apply round_20log10_exact_correct, Hp.
  - reflexivity.
  - rewrite Hpos by reflexivity. reflexivity.
  - intros p1 p2 Hp1 Hlt. rewrite !Hpos by lia.
    apply round_20log10_exact_mono; lia.
  - intros s. reflexivity.
Qed.


End Properties.

(** * Instances on the sample data *)


Example sample_snapshot :
  option_map snapshotIds (run_calls Sample.objects Sample.server Sample.calls)
  = Some ["eth0"].
Proof. reflexivity. Qed.

Example sample_registry_order :
  snapshotIds Sample.busy_server = ["alsa"; "eth0"].
Proof. reflexivity. Qed.

Example sample_state_nodata :
  fst (@determineState Sample.header 2000 Sample.eth0) = NoData.
Proof. reflexivity. Qed.

Example sample_state_after_decay :
  m_glitch_counter (snd (@determineState Sample.header 4000 Sample.eth0)) = 0.
Proof. reflexivity. Qed.


(** The eth0 sample at time 2000: its buffer has been empty for 1000
    seconds, and both its glitch counter (5) and its silence counter (200)
    are above their thresholds; the state is NoData all the same. *)
Lemma determineState_priority_witness :
  (m_buffer_empty Sample.eth0 = true /\
   @INPUT_NODATA_TIMEOUT Sample.header
     < 2000 - m_time_last_buffer_nonempty Sample.eth0) /\
  fst (@determineState Sample.header 2000 Sample.eth0) = NoData.
Proof.
  assert (Hnodata : m_buffer_empty Sample.eth0 = true /\
                    @INPUT_NODATA_TIMEOUT Sample.header
                      < 2000 - m_time_last_buffer_nonempty Sample.eth0).
  { split; [reflexivity | reflexivity]. }
  split; [exact Hnodata |].
  pose proof (@determineState_priority Sample.header 2000 Sample.eth0) as H.
  cbv zeta in H. destruct H as (_ & _ & _ & H & _).
  apply H. exact Hnodata.
Defined.

Lemma update_ptree_not_running_witness :
  m_running Sample.stopped_server = false /\
  update_ptree Sample.stopped_server Sample.doc
    = (Sample.stopped_server, []) /\
  m_pt (fst (update_ptree Sample.stopped_server Sample.doc))
    = m_pt Sample.stopped_server /\
  m_pending (fst (update_ptree Sample.stopped_server Sample.doc))
    = m_pending Sample.stopped_server /\
  notifications (snd (update_ptree Sample.stopped_server Sample.doc)) = 0%nat.
Proof.
  split; [reflexivity |].
  apply (update_ptree_not_running Sample.stopped_server Sample.doc).
  reflexivity.
Defined.

(** A running server does take the engine's document. *)
Example update_ptree_running :
  update_ptree Sample.server Sample.doc
  = (set_pending (set_pt Sample.server Sample.doc) false, [EvNotifyOne]).
Proof. reflexivity. Qed.

Lemma setptree_ok_request : setptree_request Sample.setptree_ok.
Proof. repeat split. Defined.

Lemma setptree_bad_request : setptree_request Sample.setptree_bad.
Proof. repeat split. Defined.

(** A well-formed [setptree] on a server whose [m_retrieve_pending] is
    false: the flag is still false afterwards and nobody is notified. *)
Lemma setptree_success_leaves_flag_witness :
  setptree_request Sample.setptree_ok /\
  json_parsed Sample.setptree_ok = Ok Sample.doc /\
  exists srv' evs,
    @handle_accept Sample.header Sample.setptree_ok Sample.server
      Sample.no_objects
    = Returned srv' Sample.no_objects evs /\
    m_pt srv' = Sample.doc /\
    written evs = [Sample.greeting] /\
    m_retrieve_pending srv' = m_retrieve_pending Sample.server /\
    notifications evs = 0%nat.
Proof.
  split; [exact setptree_ok_request |]. split; [reflexivity |].
  apply (@setptree_success_leaves_flag Sample.header Sample.setptree_ok
           Sample.server Sample.no_objects Sample.doc).
  - exact setptree_ok_request.
  - reflexivity.
Defined.

Example setptree_ok_flag_stays_false :
  @handle_accept Sample.header Sample.setptree_ok Sample.server
    Sample.no_objects
  = Returned (set_pt Sample.server Sample.doc) Sample.no_objects
      [EvLog info "RC: Accepted"; EvWrite Sample.greeting] /\
  m_retrieve_pending (set_pt Sample.server Sample.doc) = false.
Proof. split; reflexivity. Qed.

(** The same [setptree], then a [getptree] woken three times with the
    engine idle: the handler is still waiting. *)
Lemma setptree_then_getptree_blocks_witness :
  m_retrieve_pending Sample.server = false /\
  setptree_request Sample.setptree_ok /\
  json_parsed Sample.setptree_ok = Ok Sample.doc /\
  getptree_request (Sample.getptree_quiet 3) /\
  wakeups (Sample.getptree_quiet 3) = repeat [] 3%nat /\
  exists srv1 evs1 srv2 evs2,
    @handle_accept Sample.header Sample.setptree_ok Sample.server
      Sample.no_objects
    = Returned srv1 Sample.no_objects evs1 /\
    @handle_accept Sample.header (Sample.getptree_quiet 3) srv1
      Sample.no_objects
    = Waiting srv2 Sample.no_objects evs2 /\
    m_pt srv2 = Sample.doc /\
    written evs2 = [Sample.greeting].
Proof.
  split; [reflexivity |]. split; [exact setptree_ok_request |].
  split; [reflexivity |]. split; [split; reflexivity |].
  split; [reflexivity |].
  apply (@setptree_then_getptree_blocks Sample.header Sample.setptree_ok
           (Sample.getptree_quiet 3) Sample.server Sample.no_objects
           Sample.doc 3%nat).
  - reflexivity.
  - exact setptree_ok_request.
  - reflexivity.
  - split; reflexivity.
  - reflexivity.
Defined.

(** C3, refuted as stated: the bridge holds a document, the line after
    [setptree] is not empty and does not parse, and the tree afterwards is
    not the tree before. *)
Lemma setptree_malformed_counterexample :
  setptree_request Sample.setptree_bad /\
  (exists what, json_parsed Sample.setptree_bad = Throw what) /\
  exists srv' evs,
    @handle_accept Sample.header Sample.setptree_bad Sample.server
      Sample.no_objects
    = Returned srv' Sample.no_objects evs /\
    m_pt srv' <> m_pt Sample.server.
Proof.
  split; [exact setptree_bad_request |].
  split; [eexists; reflexivity |].
  eexists; eexists. split; [reflexivity |].
  cbn. discriminate.
Qed.

Lemma setptree_malformed_clears_tree_witness :
  setptree_request Sample.setptree_bad /\
  json_parsed Sample.setptree_bad
    = Throw "<unspecified file>(1): expected value" /\
  @handle_accept Sample.header Sample.setptree_bad Sample.server
    Sample.no_objects
  = Returned (set_pt Sample.server ptree_clear) Sample.no_objects
      [EvLog info "RC: Accepted"; EvWrite Sample.greeting;
       caught "<unspecified file>(1): expected value"] /\
  m_pt (set_pt Sample.server ptree_clear) = ptree_clear.
Proof.
  split; [exact setptree_bad_request |]. split; [reflexivity |].
  apply (@setptree_malformed_clears_tree Sample.header Sample.setptree_bad
           Sample.server Sample.no_objects
           "<unspecified file>(1): expected value").
  - exact setptree_bad_request.
  - reflexivity.
Defined.


Lemma sample_objects_live (p : ptr) :
  In p [1; 2; 3]%positive -> PositiveMap.In p Sample.objects.
Proof.
  intros [<- | [<- | [<- | []]]];
    eexists; apply PositiveMap.find_2; reflexivity.
Defined.

Lemma sample_registry_live :
  registry_live Sample.busy_server Sample.objects.
Proof.
  intros id p Hmaps. apply sample_objects_live.
  apply SMapF.add_mapsto_iff in Hmaps as [[_ <-] | [_ Hmaps]];
    [now left |].
  apply SMapF.add_mapsto_iff in Hmaps as [[_ <-] | [_ Hmaps]];
    [right; now left |].
  apply SMapF.empty_mapsto_iff in Hmaps. contradiction.
Defined.

(** Two value snapshots of the server that has eth0 and alsa registered. *)
Lemma getValuesJSON_destructive_witness :
  registry_live Sample.busy_server Sample.objects /\
  exists json1 h1 json2 h2 samples,
    @getValuesJSON Sample.header Sample.busy_server Sample.objects
      = Some (json1, h1) /\
    @getValuesJSON Sample.header Sample.busy_server h1 = Some (json2, h2) /\
    json2 = @values_report Sample.header samples /\
    map fst samples = snapshotIds Sample.busy_server /\
    Forall (fun x => @transient_reset Sample.header (snd x)) samples /\
    (forall id p,
        SMap.MapsTo id p (m_inputStats Sample.busy_server) ->
        exists s1,
          PositiveMap.find p h1 = Some s1 /\
          PositiveMap.find p h2 = Some s1 /\
          @transient_reset Sample.header s1) /\
    (forall p s,
        PositiveMap.find p Sample.objects = Some s ->
        exists s1 s2,
          PositiveMap.find p h1 = Some s1 /\
          PositiveMap.find p h2 = Some s2 /\
          same_classifier_memory s s1 /\
          same_classifier_memory s s2).
Proof.
  split; [exact sample_registry_live |].
  apply (@getValuesJSON_destructive Sample.header Sample.busy_server
           Sample.objects).
  exact sample_registry_live.
Defined.

Example sample_second_values_report :
  match @getValuesJSON Sample.header Sample.busy_server Sample.objects with
  | Some (_, h1) =>
      option_map fst (@getValuesJSON Sample.header Sample.busy_server h1)
  | None => None
  end
  = Some (@values_report Sample.header
            [("alsa", @reset Sample.header Sample.alsa);
             ("eth0", @reset Sample.header Sample.eth0)]).
Proof. vm_compute. reflexivity. Qed.

(** A second object named eth0 (at address 3) is registered while the
    registry maps eth0 to the object at address 1. *)
Lemma registerInput_duplicate_witness :
  PositiveMap.find 3%positive Sample.objects = Some Sample.eth0_again /\
  SMap.find (get_name Sample.eth0_again) (m_inputStats Sample.busy_server)
    = Some 1%positive /\
  registerInput Sample.busy_server Sample.objects 3%positive
    = Some (Sample.busy_server,
            [EvLog error
               ("Double registration in MGMT Server with id '"
                  ++ get_name Sample.eth0_again ++ "'")]) /\
  count_occ string_dec (snapshotIds Sample.busy_server)
    (get_name Sample.eth0_again) = 1%nat /\
  SMap.find (get_name Sample.eth0_again) (m_inputStats Sample.busy_server)
    = Some 1%positive /\
  getStatConfigJSON Sample.busy_server
    = config_report (snapshotIds Sample.busy_server).
Proof.
  split; [reflexivity |]. split; [reflexivity |].
  apply (registerInput_duplicate Sample.busy_server Sample.objects
           3%positive 1%positive Sample.eth0_again);
    reflexivity.
Defined.

Lemma sample_calls_live (inp : ptr) :
  In (CallRegister inp) Sample.calls -> PositiveMap.In inp Sample.objects.
Proof.
  intros Hin. apply sample_objects_live.
  destruct Hin as [[= <-] | [[= <-] | [[= <-] | [[=] | [[=] | []]]]]];
    cbn; auto.
Defined.

(** Registering eth0, alsa and a second eth0, then unregistering alsa and
    an id that was never registered. *)
Lemma snapshotIds_exact_witness :
  SMap.Empty (m_inputStats Sample.server) /\
  (forall inp, In (CallRegister inp) Sample.calls ->
               PositiveMap.In inp Sample.objects) /\
  exists srv,
    run_calls Sample.objects Sample.server Sample.calls = Some srv /\
    (forall id, In id (snapshotIds srv) <->
                registered_after Sample.objects Sample.calls id) /\
    NoDup (snapshotIds srv) /\
    StronglySorted String_as_OT.lt (snapshotIds srv) /\
    getStatConfigJSON srv = config_report (snapshotIds srv) /\
    (forall conn,
        boost_error conn = false ->
        in_message conn = "config" ->
        exists evs,
          @handle_accept Sample.header conn srv Sample.objects
            = Returned srv Sample.objects evs /\
          written evs = [Sample.greeting; getStatConfigJSON srv]).
Proof.
  split; [apply SMap.empty_1 |]. split; [exact sample_calls_live |].
  apply (@snapshotIds_exact Sample.header Sample.objects Sample.server
           Sample.calls).
  - apply SMap.empty_1.
  - exact sample_calls_live.
Defined.

Example sample_config_report :
  getStatConfigJSON Sample.busy_server
  = "{ " ++ quoted "config" ++ " : [" ++ nl
      ++ " " ++ quoted "alsa" ++ " ,  " ++ quoted "eth0" ++ " ] }" ++ nl.
Proof. reflexivity. Qed.

(** * Instances of the further properties *)


Lemma sample_server_empty (id : string) : ~ In id (snapshotIds Sample.server).
Proof. intros []. Defined.

(** The object at address 1 is registered in the empty registry. *)
Lemma registerInput_fresh_witness :
  PositiveMap.find 1%positive Sample.objects = Some Sample.eth0 /\
  ~ In (get_name Sample.eth0) (snapshotIds Sample.server) /\
  exists srv',
    registerInput Sample.server Sample.objects 1%positive = Some (srv', []) /\
    SMap.find (get_name Sample.eth0) (m_inputStats srv') = Some 1%positive /\
    isInputRegistered srv' (get_name Sample.eth0) = (true, []) /\
    (forall id, id <> get_name Sample.eth0 ->
                SMap.find id (m_inputStats srv')
                = SMap.find id (m_inputStats Sample.server)) /\
    (forall id, In id (snapshotIds srv') <->
                id = get_name Sample.eth0 \/ In id (snapshotIds Sample.server)) /\
    (m_pt srv', m_pending srv', m_retrieve_pending srv',
     m_running srv', m_fault srv')
    = (m_pt Sample.server, m_pending Sample.server,
       m_retrieve_pending Sample.server,
       m_running Sample.server, m_fault Sample.server).
Proof.
  split; [reflexivity |]. split; [apply sample_server_empty |].
  apply (registerInput_fresh Sample.server Sample.objects 1%positive
           Sample.eth0).
  - reflexivity.
  - apply sample_server_empty.
Defined.

Lemma unregisterInput_removes_witness :
  SMap.find "alsa" (m_inputStats (unregisterInput Sample.busy_server "alsa"))
    = None /\
  ~ In "alsa" (snapshotIds (unregisterInput Sample.busy_server "alsa")) /\
  fst (isInputRegistered (unregisterInput Sample.busy_server "alsa") "alsa")
    = false /\
  (forall id', id' <> "alsa" ->
               SMap.find id'
                 (m_inputStats (unregisterInput Sample.busy_server "alsa"))
               = SMap.find id' (m_inputStats Sample.busy_server)) /\
  (~ In "alsa" (snapshotIds Sample.busy_server) ->
   unregisterInput Sample.busy_server "alsa" = Sample.busy_server).
Proof.
  apply (unregisterInput_removes Sample.busy_server "alsa").
Defined.

Lemma register_unregister_roundtrip_witness :
  PositiveMap.find 1%positive Sample.objects = Some Sample.eth0 /\
  ~ In (get_name Sample.eth0) (snapshotIds Sample.server) /\
  exists srv1,
    registerInput Sample.server Sample.objects 1%positive = Some (srv1, []) /\
    SMap.Equal (m_inputStats (unregisterInput srv1 (get_name Sample.eth0)))
               (m_inputStats Sample.server) /\
    snapshotIds (unregisterInput srv1 (get_name Sample.eth0))
    = snapshotIds Sample.server /\
    getStatConfigJSON (unregisterInput srv1 (get_name Sample.eth0))
    = getStatConfigJSON Sample.server.
Proof.
  split; [reflexivity |]. split; [apply sample_server_empty |].
  apply (register_unregister_roundtrip Sample.server Sample.objects
           1%positive Sample.eth0).
  - reflexivity.
  - apply sample_server_empty.
Defined.

Lemma sample_server_named : registry_named Sample.server Sample.objects.
Proof.
  intros id p Hmaps. apply SMapF.empty_mapsto_iff in Hmaps. contradiction.
Defined.

Lemma sample_busy_named : registry_named Sample.busy_server Sample.objects.
Proof.
  intros id p Hmaps.
  apply SMapF.add_mapsto_iff in Hmaps as [[<- <-] | [_ Hmaps]];
    [exists Sample.eth0; split; reflexivity |].
  apply SMapF.add_mapsto_iff in Hmaps as [[<- <-] | [_ Hmaps]];
    [exists Sample.alsa; split; reflexivity |].
  apply SMapF.empty_mapsto_iff in Hmaps. contradiction.
Defined.

Lemma run_calls_named_witness :
  registry_named Sample.server Sample.objects /\
  run_calls Sample.objects Sample.server Sample.calls
    = Some Sample.server_after_calls /\
  registry_named Sample.server_after_calls Sample.objects /\
  registry_live Sample.server_after_calls Sample.objects /\
  (forall id1 id2 p,
      SMap.MapsTo id1 p (m_inputStats Sample.server_after_calls) ->
      SMap.MapsTo id2 p (m_inputStats Sample.server_after_calls) ->
      id1 = id2).
Proof.
  split; [exact sample_server_named |]. split; [reflexivity |].
  apply (run_calls_named Sample.objects Sample.calls Sample.server
           Sample.server_after_calls).
  - exact sample_server_named.
  - reflexivity.
Defined.

Lemma getValuesJSON_exact_witness :
  registry_named Sample.busy_server Sample.objects /\
  let samples :=
    samples_of Sample.objects
      (SMap.elements (m_inputStats Sample.busy_server)) in
  exists h',
    @getValuesJSON Sample.header Sample.busy_server Sample.objects
      = Some (@values_report Sample.header samples, h') /\
    map fst samples = snapshotIds Sample.busy_server /\
    (forall id s,
        In (id, s) samples <->
        exists p, SMap.MapsTo id p (m_inputStats Sample.busy_server) /\
                  PositiveMap.find p Sample.objects = Some s) /\
    (forall id p,
        SMap.MapsTo id p (m_inputStats Sample.busy_server) ->
        exists s, PositiveMap.find p Sample.objects = Some s /\
                  PositiveMap.find p h' = Some (@reset Sample.header s)) /\
    (forall p,
        (forall id, ~ SMap.MapsTo id p (m_inputStats Sample.busy_server)) ->
        PositiveMap.find p h' = PositiveMap.find p Sample.objects).
Proof.
  split; [exact sample_busy_named |].
  apply (@getValuesJSON_exact Sample.header Sample.busy_server
           Sample.objects).
  exact sample_busy_named.
Defined.

Example sample_values_samples :
  samples_of Sample.objects (SMap.elements (m_inputStats Sample.busy_server))
  = [("alsa", Sample.alsa); ("eth0", Sample.eth0)].
Proof. reflexivity. Qed.

Lemma sample_same_memory :
  same_classifier_memory Sample.eth0 Sample.eth0_later.
Proof. repeat split. Defined.

Lemma determineState_memory_only_witness :
  same_classifier_memory Sample.eth0 Sample.eth0_later /\
  fst (@determineState Sample.header 2000 Sample.eth0_later)
    = fst (@determineState Sample.header 2000 Sample.eth0) /\
  fst (@determineState Sample.header 2000
         (@reset Sample.header Sample.eth0))
    = fst (@determineState Sample.header 2000 Sample.eth0).
Proof.
  split; [exact sample_same_memory |].
  apply (@determineState_memory_only Sample.header 2000 Sample.eth0
           Sample.eth0_later).
  exact sample_same_memory.
Defined.

Lemma getStateJSON_report_witness :
  registry_live Sample.busy_server Sample.objects /\
  let samples :=
    samples_of Sample.objects
      (SMap.elements (m_inputStats Sample.busy_server)) in
  exists h',
    @getStateJSON Sample.header 2000 Sample.busy_server Sample.objects
      = Some (state_report (@classify Sample.header 2000 samples), h') /\
    map fst (@classify Sample.header 2000 samples)
      = snapshotIds Sample.busy_server /\
    (forall id p,
        SMap.MapsTo id p (m_inputStats Sample.busy_server) ->
        exists s,
          PositiveMap.find p Sample.objects = Some s /\
          PositiveMap.find p h'
            = Some (@reset Sample.header
                      (snd (@determineState Sample.header 2000 s))) /\
          @transient_reset Sample.header
            (@reset Sample.header
               (snd (@determineState Sample.header 2000 s))) /\
          m_silence_counter
            (@reset Sample.header
               (snd (@determineState Sample.header 2000 s)))
            = m_silence_counter s /\
          m_time_last_event
            (@reset Sample.header
               (snd (@determineState Sample.header 2000 s)))
            = m_time_last_event s /\
          m_time_last_buffer_nonempty
            (@reset Sample.header
               (snd (@determineState Sample.header 2000 s)))
            = m_time_last_buffer_nonempty s) /\
    (forall p,
        (forall id, ~ SMap.MapsTo id p (m_inputStats Sample.busy_server)) ->
        PositiveMap.find p h' = PositiveMap.find p Sample.objects).
Proof.
  split; [exact sample_registry_live |].
  apply (@getStateJSON_report Sample.header 2000 Sample.busy_server
           Sample.objects).
  exact sample_registry_live.
Defined.

Example sample_state_report :
  option_map fst
    (@getStateJSON Sample.header 2000 Sample.busy_server Sample.objects)
  = Some (state_report [("alsa", Streaming); ("eth0", NoData)]).
Proof. vm_compute. reflexivity. Qed.

Lemma values_then_state_witness :
  registry_live Sample.busy_server Sample.objects /\
  @getValuesJSON Sample.header Sample.busy_server Sample.objects
    = Some (Sample.values_json, Sample.objects_after_values) /\
  exists report h2 h2',
    @getStateJSON Sample.header 2000 Sample.busy_server Sample.objects
      = Some (report, h2) /\
    @getStateJSON Sample.header 2000 Sample.busy_server
      Sample.objects_after_values
      = Some (report, h2') /\
    (forall p, PositiveMap.find p h2' = PositiveMap.find p h2).
Proof.
  split; [exact sample_registry_live |]. split; [reflexivity |].
  apply (@values_then_state Sample.header 2000 Sample.busy_server
           Sample.objects Sample.objects_after_values Sample.values_json).
  - exact sample_registry_live.
  - reflexivity.
Defined.

Lemma sample_foobar_unknown :
  unknown_command (in_message Sample.foobar_conn).
Proof. repeat split; discriminate. Defined.

(** The command line foobar. *)
Lemma handle_invalid_command_witness :
  boost_error Sample.foobar_conn = false /\
  unknown_command (in_message Sample.foobar_conn) /\
  @handle_accept Sample.header Sample.foobar_conn Sample.busy_server
    Sample.objects
  = Returned Sample.busy_server Sample.objects
      [EvLog info "RC: Accepted"; EvWrite Sample.greeting;
       EvWrite ("Invalid command" ++ nl)].
Proof.
  split; [reflexivity |]. split; [exact sample_foobar_unknown |].
  apply (@handle_invalid_command Sample.header Sample.foobar_conn
           Sample.busy_server Sample.objects).
  - reflexivity.
  - exact sample_foobar_unknown.
Defined.

(** The malformed [setptree]: the tree is cleared, the rest is kept. *)
Lemma handle_accept_frame_witness :
  served (@handle_accept Sample.header Sample.setptree_bad
            Sample.busy_server Sample.objects)
  = Some (set_pt Sample.busy_server ptree_clear, Sample.objects,
          [EvLog info "RC: Accepted"; EvWrite Sample.greeting;
           @caught "<unspecified file>(1): expected value"]) /\
  same_outside_bridge Sample.busy_server
    (set_pt Sample.busy_server ptree_clear) /\
  (in_message Sample.setptree_bad <> "values" ->
   in_message Sample.setptree_bad <> "state" ->
   Sample.objects = Sample.objects).
Proof.
  split; [reflexivity |].
  apply (@handle_accept_frame Sample.header Sample.setptree_bad
           Sample.busy_server (set_pt Sample.busy_server ptree_clear)
           Sample.objects Sample.objects
           [EvLog info "RC: Accepted"; EvWrite Sample.greeting;
            @caught "<unspecified file>(1): expected value"]).
  reflexivity.
Defined.

(** Registrations, both kinds of [setptree], engine calls, a state
    snapshot and a [getptree] left waiting. *)
Lemma retrieve_flag_stays_false_witness :
  m_retrieve_pending (fst (Sample.server, Sample.objects)) = false /\
  @run_actions Sample.header (Sample.server, Sample.objects)
    Sample.busy_trace
  = Some Sample.after_busy_trace /\
  m_retrieve_pending (fst Sample.after_busy_trace) = false /\
  (forall pt,
      retrieve_new_ptree (fst Sample.after_busy_trace) pt
      = (false, pt, fst Sample.after_busy_trace, [])).
Proof.
  split; [reflexivity |]. split; [reflexivity |].
  apply (@retrieve_flag_stays_false Sample.header Sample.busy_trace
           (Sample.server, Sample.objects) Sample.after_busy_trace).
  - reflexivity.
  - reflexivity.
Defined.

Lemma sample_getptree_busy_request :
  getptree_request Sample.getptree_busy_engine.
Proof. split; reflexivity. Defined.

(** The engine publishes and polls, but the server is stopped. *)
Lemma getptree_stopped_server_waits_witness :
  getptree_request Sample.getptree_busy_engine /\
  m_running Sample.stopped_quiet_server = false /\
  m_retrieve_pending Sample.stopped_quiet_server = false /\
  @handle_accept Sample.header Sample.getptree_busy_engine
    Sample.stopped_quiet_server Sample.no_objects
  = Waiting (set_pending Sample.stopped_quiet_server true) Sample.no_objects
      [EvLog info "RC: Accepted"; EvWrite Sample.greeting].
Proof.
  split; [exact sample_getptree_busy_request |].
  split; [reflexivity |]. split; [reflexivity |].
  apply (@getptree_stopped_server_waits Sample.header
           Sample.getptree_busy_engine Sample.stopped_quiet_server
           Sample.no_objects).
  - exact sample_getptree_busy_request.
  - reflexivity.
  - reflexivity.
Defined.

Lemma sample_getptree_published_request :
  getptree_request Sample.getptree_published.
Proof. split; reflexivity. Defined.

(** Two idle wake-ups, then the engine publishes. *)
Lemma getptree_released_by_publish_witness :
  getptree_request Sample.getptree_published /\
  m_retrieve_pending Sample.server = false /\
  m_running Sample.server = true /\
  wakeups Sample.getptree_published
    = (repeat [] 2 ++ [EngUpdate Sample.doc]
         :: [[EngRetrieve Sample.old_doc]])%list /\
  @handle_accept Sample.header Sample.getptree_published Sample.server
    Sample.no_objects
  = Returned (set_pending (set_pt Sample.server Sample.doc) false)
      Sample.no_objects
      [EvLog info "RC: Accepted"; EvWrite Sample.greeting; EvNotifyOne;
       match @write_json Sample.header Sample.doc with
       | Ok text => EvWrite text
       | Throw what => @caught what
       end].
Proof.
  split; [exact sample_getptree_published_request |].
  split; [reflexivity |]. split; [reflexivity |]. split; [reflexivity |].
  apply (@getptree_released_by_publish Sample.header
           Sample.getptree_published Sample.server Sample.no_objects
           2%nat Sample.doc [[EngRetrieve Sample.old_doc]]).
  - exact sample_getptree_published_request.
  - reflexivity.
  - reflexivity.
  - reflexivity.
Defined.

Lemma sample_same_ids (id : string) :
  SMap.In id (m_inputStats Sample.busy_server) <->
  SMap.In id (m_inputStats Sample.other_server).
Proof.
  cbn [m_inputStats Sample.busy_server Sample.other_server].
  unfold Sample.registry, Sample.registry_other_order.
  rewrite !SMapF.add_in_iff, !SMapF.empty_in_iff.
  split; intros [H | [H | []]]; auto.
Defined.

(** eth0 and alsa, registered in either order and for different objects. *)
Lemma getStatConfigJSON_canonical_witness :
  (forall id, SMap.In id (m_inputStats Sample.busy_server) <->
              SMap.In id (m_inputStats Sample.other_server)) /\
  snapshotIds Sample.busy_server = snapshotIds Sample.other_server /\
  getStatConfigJSON Sample.busy_server
    = getStatConfigJSON Sample.other_server.
Proof.
  split; [exact sample_same_ids |].
  apply (getStatConfigJSON_canonical Sample.busy_server Sample.other_server).
  exact sample_same_ids.
Defined.


(** The object alsa at address 2 is destroyed. *)
Lemma destroy_InputStat_named_witness :
  registry_named Sample.busy_server Sample.objects /\
  PositiveMap.find 2%positive Sample.objects = Some Sample.alsa /\
  exists srv' h',
    destroy_InputStat Sample.busy_server Sample.objects 2%positive
      = Some (srv', h') /\
    registry_named srv' h' /\
    registry_live srv' h' /\
    ~ In (m_name Sample.alsa) (snapshotIds srv') /\
    (forall id, id <> m_name Sample.alsa ->
                SMap.find id (m_inputStats srv')
                = SMap.find id (m_inputStats Sample.busy_server)).
Proof.
  split; [exact sample_busy_named |]. split; [reflexivity |].
  apply (destroy_InputStat_named Sample.busy_server Sample.objects
           2%positive Sample.alsa).
  - exact sample_busy_named.
  - reflexivity.
Defined.

(** The second eth0 (address 3) is refused and then destroyed; the first
    eth0 (address 1) loses its entry. *)
Lemma destroy_refused_duplicate_witness :
  PositiveMap.find 3%positive Sample.objects = Some Sample.eth0_again /\
  PositiveMap.find 1%positive Sample.objects = Some Sample.eth0 /\
  1%positive <> 3%positive /\
  SMap.find (get_name Sample.eth0_again) (m_inputStats Sample.busy_server)
    = Some 1%positive /\
  exists evs srv' h',
    registerAtServer Sample.busy_server Sample.objects 3%positive
      = Some (Sample.busy_server, evs) /\
    destroy_InputStat Sample.busy_server Sample.objects 3%positive
      = Some (srv', h') /\
    PositiveMap.find 1%positive h' = Some Sample.eth0 /\
    SMap.find (get_name Sample.eth0_again) (m_inputStats srv') = None /\
    ~ In (get_name Sample.eth0_again) (snapshotIds srv') /\
    fst (isInputRegistered srv' (get_name Sample.eth0_again)) = false.
Proof.
  split; [reflexivity |]. split; [reflexivity |].
  split; [discriminate |]. split; [reflexivity |].
  apply (destroy_refused_duplicate Sample.busy_server Sample.objects
           3%positive 1%positive Sample.eth0_again Sample.eth0).
  - reflexivity.
  - reflexivity.
  - discriminate.
  - reflexivity.
Defined.

Example sample_destroy_duplicate_snapshot :
  option_map (fun st => snapshotIds (fst st))
    (destroy_InputStat Sample.busy_server Sample.objects 3%positive)
  = Some ["alsa"].
Proof. reflexivity. Qed.

(** The exact conversion at some peaks. *)
Example sample_exact_dB :
  map (@peak_dB Sample.exact_header) [0; 1; 300; 2000; 16384; 32767]
  = [-90; -90; -41; -24; -6; 0].
Proof. vm_compute. reflexivity. Qed.

Lemma sample_exact_conversion (p : Z) :
  0 < p -> @round_20log10 Sample.exact_header p = round_20log10_exact p.
Proof. intros _. reflexivity. Defined.

Lemma peak_dB_encoding_witness :
  (forall p, 0 < p ->
             @round_20log10 Sample.exact_header p = round_20log10_exact p) /\
  (forall p, 0 < p ->
             is_round_20log10 p (@peak_dB Sample.exact_header p) /\
             (forall d, is_round_20log10 p d ->
                        d = @peak_dB Sample.exact_header p)) /\
  @peak_dB Sample.exact_header 0 = -90 /\
  @peak_dB Sample.exact_header int16_max = 0 /\
  (forall p1 p2, 0 < p1 -> p1 < p2 ->
                 @peak_dB Sample.exact_header p1
                 <= @peak_dB Sample.exact_header p2) /\
  (forall s,
      @encodeValuesJSON Sample.exact_header s
      = inputstat_json (min_fill_buffer s) (max_fill_buffer s)
          (@peak_dB Sample.exact_header (peak_left s))
          (@peak_dB Sample.exact_header (peak_right s))
          (num_underruns s) (num_overruns s)).
Proof.
  split; [exact sample_exact_conversion |].
  apply (@peak_dB_encoding Sample.exact_header).
  exact sample_exact_conversion.
Defined.
